(** * RevOpsKPI: synthetic sales data, data-quality scan, KPI aggregation

    A shallow embedding of [RevOpsKPI.py].

    Modelling conventions.
    - A Python [dict] used as a record is a [gmap string value]; the
      [data] mapping, whose iteration order matters to the quality
      checker, is an association list in insertion order (keys distinct,
      as in any dict).
    - A Python int is a [Z] and a Python float is an exact rational ([Q]):
      the rounding of binary floating point is outside the model, and so
      is the 64-bit wrap-around of a pandas sum over a column of ints
      (the theorems that equate a sum with the mathematical one bound
      the amounts).  The only non-finite value the
      program can produce, pandas' NaN for the mean of a column without
      any number in it, is kept as a separate constructor [KNaN].
    - The process-global random source, the Faker instance and the clock
      are threaded as an explicit world state [W]; what the libraries
      guarantee about them is the interface [Runtime].
    - A pandas [DataFrame] is its set of column labels and its rows;
      exceptions ([KeyError], [TypeError], [ValueError]) are values of
      [exn], carried by the [result] type. *)

From Stdlib Require Import QArith Qabs Qround Lia Lqa.
From stdpp Require Import gmap strings list fin_maps pretty.

Local Open Scope string_scope.

(** ** Values, records and exceptions *)

Inductive value : Type :=
  | VNone                (* None (and pandas' missing cell) *)
  | VStr (s : string)
  | VInt (z : Z)         (* an int *)
  | VNum (q : Q).        (* a float *)

#[global] Instance Q_eq_dec : EqDecision Q.
Proof. solve_decision. Defined.

#[global] Instance value_eq_dec : EqDecision value.
Proof. solve_decision. Defined.

Abbreviation record := (gmap string value).

Inductive exn : Type :=
  | KeyError (key : string)
  | IndexError
  | TypeError
  | ValueError.

Inductive result (A : Type) : Type :=
  | Ok (a : A)
  | Err (e : exn).
Arguments Ok {A} a.
Arguments Err {A} e.

(** Computations that consume the world and may raise. *)
Definition M (W A : Type) : Type := W -> result (A * W).

Definition M_unit {W A} (a : A) : M W A := fun w => Ok (a, w).

Definition M_then {W A B} (m : M W A) (k : A -> M W B) : M W B :=
  fun w => match m w with
           | Ok (a, w') => k a w'
           | Err e => Err e
           end.

(** A pure step that may raise. *)
Definition lift_result {W A} (r : result A) : M W A :=
  fun w => match r with Ok a => Ok (a, w) | Err e => Err e end.

(** A step that consumes the world and never raises. *)
Definition lift_state {W A} (f : W -> A * W) : M W A :=
  fun w => Ok (f w).

(* stdpp's monad notation [x ← m; k] *)
#[global] Instance M_ret {W} : MRet (M W) := fun A => @M_unit W A.
#[global] Instance M_bind {W} : MBind (M W) := fun A B k m => M_then m k.

(** ** The runtime: random source, Faker, clock *)

Class Runtime (W : Type) : Type := {
  (* random.random() *)
  rt_random : W -> Q * W;
  (* random.Random._randbelow(n) *)
  rt_randbelow : nat -> W -> nat * W;
  (* Faker().company() *)
  rt_company : W -> string * W;
  (* (datetime.now() + timedelta(days=k)).strftime("%Y-%m-%d") *)
  rt_date : Z -> W -> string * W;
  rt_random_unit : forall w, (0 <= fst (rt_random w))%Q /\ (fst (rt_random w) < 1)%Q;
  rt_randbelow_lt : forall n w, (0 < n)%nat -> (fst (rt_randbelow n w) < n)%nat
}.

Section RandomModule.
Context {W : Type} `{Runtime W}.

(* random.uniform(a, b): a + (b - a) * self.random() *)
Definition uniform (a b : Q) : M W Q :=
  u ← lift_state rt_random;
  mret (a + (b - a) * u)%Q.

(* random.randint(a, b): randrange(a, b + 1), i.e. a + _randbelow(b - a + 1) *)
Definition randint (a b : Z) : M W Z :=
  i ← lift_state (rt_randbelow (Z.to_nat (b - a + 1)));
  mret (a + Z.of_nat i)%Z.

(* random.choice(seq):
     if not len(seq): raise IndexError
     return seq[self._randbelow(len(seq))] *)
Definition choice {A} (seq : list A) : M W A :=
  match seq with
  | [] => lift_result (Err IndexError)
  | _ =>
      i ← lift_state (rt_randbelow (length seq));
      match seq !! i with
      | Some x => mret x
      | None => lift_result (Err IndexError)
      end
  end.

(* random.choices([a, b], weights=[wa, wb])[0]:
     cum_weights = [wa, wa + wb]; total = wa + wb
     population[bisect(cum_weights, random() * total, 0, 1)] *)
Definition choices2 {A} (a b : A) (wa wb : Q) : M W A :=
  u ← lift_state rt_random;
  mret (if Qle_bool wa (u * (wa + wb)) then b else a).

(* (datetime.now() + timedelta(days=k)).strftime("%Y-%m-%d") *)
Definition date_in (k : Z) : M W string := lift_state (rt_date k).
End RandomModule.

(* round(x, 2) on an exact rational: nearest multiple of 1/100, ties to
   the even one *)
Definition round_half_even (q : Q) : Z :=
  let f := Qfloor q in
  match Qcompare (q - inject_Z f) (1 # 2) with
  | Lt => f
  | Gt => (f + 1)%Z
  | Eq => if Z.even f then f else (f + 1)%Z
  end.

Definition round2 (q : Q) : Q := (inject_Z (round_half_even (q * 100)) / 100)%Q.

(** ** 1. Synthetic data generator *)

(* self.products, self.stages *)
Definition products : list string := ["Product A"; "Product B"; "Product C"].
Definition stages : list string :=
  ["Prospecting"; "Qualification"; "Demo"; "Proposal"; "Negotiation";
   "Closed Won"; "Closed Lost"].

(* f"{prefix}{base + i}" *)
Definition fmt_id (prefix : string) (base : Z) (i : Z) : string :=
  prefix +:+ pretty (base + i)%Z.

(* range(count): 0, 1, ..., count - 1; empty when count <= 0 *)
Definition range (count : Z) : list Z := seqZ 0 count.

(* [ body(i) for i in idx ]: the elements are built in order, each from
   the world the previous one left *)
Fixpoint comprehension {W A} (body : Z -> M W A) (idx : list Z) : M W (list A) :=
  match idx with
  | [] => mret []
  | i :: idx' =>
      a ← body i;
      l ← comprehension body idx';
      mret (a :: l)
  end.

Section Generator.
Context {W : Type} `{Runtime W}.

Definition lead (i : Z) : M W record :=
  name ← lift_state rt_company;
  source ← choice ["Web"; "Referral"; "Event"; "Cold Call"];
  d ← randint 0 30;
  date ← date_in (- d);
  status ← choice ["New"; "Contacted"; "Qualified"; "Disqualified"];
  mret (list_to_map
          [("id", VStr (fmt_id "L" 1000 i));
           ("name", VStr name);
           ("source", VStr source);
           ("date", VStr date);
           ("status", VStr status)]).

Definition generate_leads (count : Z) : M W (list record) :=
  comprehension lead (range count).

Definition opportunity (i : Z) : M W record :=
  l ← randint 0 99;
  amount ← uniform 1000 50000;
  product ← choice products;
  stage ← choice stages;
  o ← randint 1 5;
  dc ← randint 0 90;
  created ← date_in (- dc);
  dd ← randint 0 60;
  close ← date_in dd;
  mret (list_to_map
          [("id", VStr (fmt_id "O" 2000 i));
           ("lead_id", VStr (fmt_id "L" 1000 l));
           ("amount", VNum (round2 amount));
           ("product", VStr product);
           ("stage", VStr stage);
           ("owner", VStr ("Sales-" +:+ pretty o));
           ("created_date", VStr created);
           ("close_date", VStr close)]).

Definition generate_opportunities (count : Z) : M W (list record) :=
  comprehension opportunity (range count).

Definition closed_deal (i : Z) : M W record :=
  o ← randint 0 49;
  amount ← uniform 1000 50000;
  d ← randint 0 30;
  close ← date_in (- d);
  status ← choices2 "Closed Won" "Closed Lost" (7 # 10) (3 # 10);
  mret (list_to_map
          [("id", VStr (fmt_id "D" 3000 i));
           ("opportunity_id", VStr (fmt_id "O" 2000 o));
           ("amount", VNum (round2 amount));
           ("close_date", VStr close);
           ("status", VStr status)]).

Definition generate_closed_deals (count : Z) : M W (list record) :=
  comprehension closed_deal (range count).

(* DataCollectorAgent.collect_data, with the default counts *)
Definition collect_data : M W (list (string * list record)) :=
  ls ← generate_leads 100;
  os ← generate_opportunities 50;
  ds ← generate_closed_deals 30;
  mret [("leads", ls); ("opportunities", os); ("closed_deals", ds)].
End Generator.

(** ** pandas: frames, columns, masks, reductions *)

(* sequencing of pure steps that may raise *)
Definition and_then {A B} (r : result A) (k : A -> result B) : result B :=
  match r with Ok a => k a | Err e => Err e end.

Record DataFrame : Type := {
  columns : gset string;
  rows : list record
}.

(* pd.DataFrame(records): the column labels are the keys met in the
   records, so a frame built from [] has no column at all *)
Definition frame_of (records : list record) : DataFrame :=
  {| columns := ⋃ (dom <$> records); rows := records |}.

(* the cell of a row under a label; a key the row lacks reads as missing *)
Definition cell (c : string) (r : record) : value := default VNone (r !! c).

(* df[c] *)
Definition column (c : string) (df : DataFrame) : result (list value) :=
  if decide (c ∈ columns df) then Ok (cell c <$> rows df) else Err (KeyError c).

(* series == s, elementwise *)
Definition eq_str (s : string) (v : value) : bool :=
  match v with
  | VStr t => bool_decide (t = s)
  | _ => false
  end.

(* series.isin(l), elementwise *)
Definition isin (l : list string) (v : value) : bool :=
  match v with
  | VStr t => bool_decide (t ∈ l)
  | _ => false
  end.

(* df[mask]: the rows whose mask entry is True; the labels stay *)
Definition select (df : DataFrame) (mask : list bool) : DataFrame :=
  {| columns := columns df;
     rows := fst <$> List.filter snd (zip (rows df) mask) |}.

(* len(df), df.shape[0] *)
Definition len (df : DataFrame) : Z := Z.of_nat (length (rows df)).

(* df.empty: some axis has length 0 *)
Definition empty (df : DataFrame) : bool :=
  bool_decide (columns df = ∅) || bool_decide (rows df = []).

(* series.sum(): missing cells are skipped; text in a column of amounts
   is outside the data model and makes the calculator raise TypeError *)
Fixpoint series_sum (s : list value) : result Q :=
  match s with
  | [] => Ok 0%Q
  | VNone :: s' => series_sum s'
  | VInt z :: s' => and_then (series_sum s') (fun t => Ok (inject_Z z + t)%Q)
  | VNum q :: s' => and_then (series_sum s') (fun t => Ok (q + t)%Q)
  | VStr _ :: _ => Err TypeError
  end.

(* series.count(): the cells that are not missing *)
Definition series_count (s : list value) : Z :=
  Z.of_nat (length (List.filter (fun v => match v with VNone => false | _ => true end) s)).

Inductive kval : Type :=
  | KNum (q : Q)
  | KNaN
  | KDict (d : gmap string Q).

(* series.mean(): sum over count of the cells that are not missing, NaN
   when there is none *)
Definition series_mean (s : list value) : result kval :=
  and_then (series_sum s) (fun t =>
    Ok (if (series_count s =? 0)%Z
        then KNaN
        else KNum (t / inject_Z (series_count s))%Q)).

(** ** 2. Agents *)

(* d[k] on a dict kept in insertion order *)
Fixpoint getitem {A} (k : string) (d : list (string * A)) : result A :=
  match d with
  | [] => Err (KeyError k)
  | (k', a) :: d' => if decide (k' = k) then Ok a else getitem k d'
  end.

Section DataQualityAgent.
(* str() of a float, as the f-string prints it *)
Variable str_num : Q -> string.

(* f"{v}" *)
Definition fmt_value (v : value) : string :=
  match v with
  | VNone => "None"
  | VStr s => s
  | VInt z => pretty z
  | VNum q => str_num q
  end.

(* any(v is None for v in record.values()) *)
Definition has_null (r : record) : bool :=
  existsb (fun kv => match kv.2 with VNone => true | _ => false end) (map_to_list r).

(* f"Missing data in {dataset_name} record {record.get('id')}" *)
Definition issue (dataset_name : string) (r : record) : string :=
  "Missing data in " +:+ dataset_name +:+ " record " +:+ fmt_value (cell "id" r).

(* the body of the inner loop: issues.append(...) under the test *)
Definition check_record (dataset_name : string) (issues : list string) (r : record)
  : list string :=
  if has_null r then issues ++ [issue dataset_name r] else issues.

(* issues = []; for dataset_name, records in data.items(): for record in records: ... *)
Definition check_completeness (data : list (string * list record)) : list string :=
  fold_left
    (fun issues '(dataset_name, records) =>
       fold_left (check_record dataset_name) records issues)
    data [].
End DataQualityAgent.

Section KPICalculationAgent.
Context {W : Type} `{Runtime W}.

(* {stage: body(stage) for stage in keys} *)
Fixpoint dict_comprehension (body : string -> M W Q) (keys : list string)
    (acc : gmap string Q) : M W (gmap string Q) :=
  match keys with
  | [] => mret acc
  | k :: keys' =>
      v ← body k;
      dict_comprehension body keys' (<[k := v]> acc)
  end.

(* df["amount"].sum() *)
Definition amount_sum (df : DataFrame) : result Q :=
  and_then (column "amount" df) series_sum.

(* df["amount"].mean() *)
Definition amount_mean (df : DataFrame) : result kval :=
  and_then (column "amount" df) series_mean.

Definition calculate (data : list (string * list record)) : M W (gmap string kval) :=
  leads ← lift_result (getitem "leads" data);
  opps ← lift_result (getitem "opportunities" data);
  deals ← lift_result (getitem "closed_deals" data);
  let df_leads := frame_of leads in
  let df_opps := frame_of opps in
  let df_deals := frame_of deals in
  won_mask ← lift_result (column "status" df_deals);
  let won_deals := select df_deals (eq_str "Closed Won" <$> won_mask) in
  lost_mask ← lift_result (column "status" df_deals);
  let lost_deals := select df_deals (eq_str "Closed Lost" <$> lost_mask) in
  let total_deals := (len won_deals + len lost_deals)%Z in
  stage ← lift_result (column "stage" df_opps);
  let open_opps :=
    select df_opps ((fun v => negb (isin ["Closed Won"; "Closed Lost"] v)) <$> stage) in
  status ← lift_result (column "status" df_leads);
  let qualified_leads := select df_leads (eq_str "Qualified" <$> status) in
  monthly_revenue ← lift_result (amount_sum won_deals);
  average_deal_size ←
    (if negb (empty won_deals)
     then lift_result (amount_mean won_deals)
     else mret (KNum 0));
  let win_rate :=
    if (0 <? total_deals)%Z
    then (inject_Z (len won_deals) / inject_Z total_deals * 100)%Q
    else 0%Q in
  sales_cycle_days ← uniform 14 45;
  quota_attainment ← uniform 70 120;
  pipeline_value ← lift_result (amount_sum open_opps);
  pipeline_velocity ←
    lift_result (and_then (amount_sum open_opps) (fun t => Ok (t * (7 # 10) / 30)%Q));
  forecast_accuracy ← uniform 80 95;
  stage_conversion ←
    dict_comprehension (fun _ => uniform (2 # 10) (8 # 10))
      ["Prospecting"; "Qualification"; "Demo"] ∅;
  coverage_ratio ←
    (if negb (len open_opps =? 0)%Z
     then lift_result (and_then (amount_sum open_opps) (fun t => Ok (t / 100000)%Q))
     else mret 0%Q);
  let lead_conversion_rate :=
    if (0 <? len df_leads)%Z
    then (inject_Z (len qualified_leads) / inject_Z (len df_leads) * 100)%Q
    else 0%Q in
  cost_per_lead ← uniform 50 200;
  mql_to_sql ← uniform 20 50;
  website_conversion ← uniform 1 5;
  cac ← uniform 500 2000;
  mret (list_to_map
          [("monthly_revenue", KNum monthly_revenue);
           ("average_deal_size", average_deal_size);
           ("win_rate", KNum win_rate);
           ("sales_cycle_days", KNum sales_cycle_days);
           ("quota_attainment", KNum quota_attainment);
           ("pipeline_value", KNum pipeline_value);
           ("pipeline_velocity", KNum pipeline_velocity);
           ("forecast_accuracy", KNum forecast_accuracy);
           ("stage_conversion", KDict stage_conversion);
           ("coverage_ratio", KNum coverage_ratio);
           ("lead_conversion_rate", KNum lead_conversion_rate);
           ("cost_per_lead", KNum cost_per_lead);
           ("mql_to_sql", KNum mql_to_sql);
           ("website_conversion", KNum website_conversion);
           ("cac", KNum cac)]).
End KPICalculationAgent.

(* int(x): the integer part, rounding toward zero *)
Definition int_of (q : Q) : Z := Z.quot (Qnum q) (Z.pos (Qden q)).

Section ForecastingAgent.
Context {W : Type} `{Runtime W}.

(* x * m for a float m *)
Definition times (x : kval) (m : Q) : result kval :=
  match x with
  | KNum q => Ok (KNum (q * m))
  | KNaN => Ok KNaN
  | KDict _ => Err TypeError
  end.

(* int(x * 2) *)
Definition int_twice (x : kval) : result Z :=
  match x with
  | KNum q => Ok (int_of (q * 2))
  | KNaN => Err ValueError
  | KDict _ => Err TypeError
  end.

Definition forecast (kpis : gmap string kval) : M W (gmap string kval) :=
  revenue ←
    lift_result (match kpis !! "monthly_revenue" with
                 | Some v => Ok v
                 | None => Err (KeyError "monthly_revenue")
                 end);
  m ← uniform (9 # 10) (12 # 10);
  next_30d_revenue ← lift_result (times revenue m);
  next_30d_leads ←
    lift_result (int_twice (default (KNum 0) (kpis !! "lead_conversion_rate")));
  mret (list_to_map
          [("next_30d_revenue", next_30d_revenue);
           ("next_30d_leads", KNum (inject_Z next_30d_leads))]).
End ForecastingAgent.

(** ** A deterministic runtime

    A counter stands for the state of the random source: every draw
    reads the counter and advances it.  It is the runtime the concrete
    runs below are evaluated in. *)

Module Counter.
Definition random (n : nat) : Q * nat := (Z.of_nat (n mod 10) # 10, S n).
Definition randbelow (k n : nat) : nat * nat := (n mod k, S n).
Definition company (n : nat) : string * nat := ("Acme Ltd", n).
Definition date (k : Z) (n : nat) : string * nat := ("day" +:+ pretty k, n).

#[global] Instance runtime : Runtime nat.
Proof.
  refine {| rt_random := random; rt_randbelow := randbelow;
            rt_company := company; rt_date := date |}.
  - intros n. cbn. unfold Qle, Qlt. cbn.
    pose proof (Nat.mod_upper_bound n 10). lia.
  - intros k n Hk. cbn. apply Nat.mod_upper_bound. lia.
Defined.

(* str() of a float, for whole numbers: 7.0 *)
Definition str_num (q : Q) : string := pretty (Qfloor q) +:+ ".0".
End Counter.

(** ** Reference definitions, in the words of the specification *)

(* the fifteen metric names of the KPI mapping *)
Definition kpi_keys : list string :=
  ["monthly_revenue"; "average_deal_size"; "win_rate"; "sales_cycle_days";
   "quota_attainment"; "pipeline_value"; "pipeline_velocity"; "forecast_accuracy";
   "stage_conversion"; "coverage_ratio"; "lead_conversion_rate"; "cost_per_lead";
   "mql_to_sql"; "website_conversion"; "cac"].

Definition stage_keys : list string := ["Prospecting"; "Qualification"; "Demo"].

(* the records of a collection whose field [key] is the text [s] *)
Definition having (key s : string) (rs : list record) : list record :=
  List.filter (fun r => bool_decide (r !! key = Some (VStr s))) rs.

(* the open opportunities: stage neither "Closed Won" nor "Closed Lost" *)
Definition open_stage (r : record) : bool :=
  negb (bool_decide (r !! "stage" = Some (VStr "Closed Won")))
  && negb (bool_decide (r !! "stage" = Some (VStr "Closed Lost"))).

Definition amount_of (r : record) : Q :=
  match r !! "amount" with
  | Some (VInt z) => inject_Z z
  | Some (VNum q) => q
  | _ => 0%Q
  end.

(* sum of amount over a collection *)
Definition total_amount (rs : list record) : Q :=
  foldr (fun r t => (amount_of r + t)%Q) 0%Q rs.

Definition count (rs : list record) : Q := inject_Z (Z.of_nat (length rs)).

(* the amounts of a collection are small enough for a 64-bit sum: their
   absolute values add up to less than 2^63 *)
Definition magnitude (rs : list record) : Q :=
  foldr (fun r t => (Qabs (amount_of r) + t)%Q) 0%Q rs.
Definition within_int64 (rs : list record) : Prop :=
  (magnitude rs < 9223372036854775808)%Q.

Definition closed_won (deals : list record) : list record :=
  having "status" "Closed Won" deals.
Definition closed_lost (deals : list record) : list record :=
  having "status" "Closed Lost" deals.
Definition qualified (leads : list record) : list record :=
  having "status" "Qualified" leads.
Definition open_opportunities (opps : list record) : list record :=
  List.filter open_stage opps.

(* count / total x 100, and 0 when the denominator is 0 *)
Definition percentage (part whole : Q) : Q :=
  if Qeq_bool whole 0 then 0%Q else (part / whole * 100)%Q.

(* mean of amount over a collection, and 0 over the empty one *)
Definition mean_amount (rs : list record) : Q :=
  match rs with
  | [] => 0%Q
  | _ => (total_amount rs / count rs)%Q
  end.

(* the records of the data model: the fields the calculator reads *)
Definition numeric_amount (r : record) : Prop :=
  (exists z, r !! "amount" = Some (VInt z)) \/ (exists q, r !! "amount" = Some (VNum q)).
Definition lead_ok (r : record) : Prop := exists s, r !! "status" = Some (VStr s).
Definition opportunity_ok (r : record) : Prop :=
  (exists s, r !! "stage" = Some (VStr s)) /\ numeric_amount r.
Definition deal_ok (r : record) : Prop :=
  (exists s, r !! "status" = Some (VStr s)) /\ numeric_amount r.

(* the metric [key] of a KPI mapping is the number [x] *)
Definition metric (k : gmap string kval) (key : string) (x : Q) : Prop :=
  exists q, k !! key = Some (KNum q) /\ (q == x)%Q.

(* the same, as a test *)
Definition metric_is (k : gmap string kval) (key : string) (x : Q) : bool :=
  match k !! key with
  | Some (KNum q) => Qeq_bool q x
  | _ => false
  end.

(* n is x with its fractional part dropped *)
Definition truncation_of (x : Q) (n : Z) : Prop :=
  ((0 <= x)%Q -> (inject_Z n <= x)%Q /\ (x < inject_Z n + 1)%Q) /\
  ((x <= 0)%Q -> (x <= inject_Z n)%Q /\ (inject_Z n - 1 < x)%Q).

(* the label an issue gives a record: its id as Python prints it, and
   None for a record whose id is None or missing *)
Definition id_label (str_num : Q -> string) (r : record) : string :=
  match r !! "id" with
  | Some (VStr s) => s
  | Some (VInt z) => pretty z
  | Some (VNum q) => str_num q
  | Some VNone | None => "None"
  end.

(* the issue reported for the record r of the collection called name *)
Definition issue_text (str_num : Q -> string) (name : string) (r : record) : string :=
  "Missing data in " +:+ name +:+ " record " +:+ id_label str_num r.

(* the mapping collect_data builds, for given collections *)
Definition data_of (leads opps deals : list record) : list (string * list record) :=
  [("leads", leads); ("opportunities", opps); ("closed_deals", deals)].

(* ids "prefix" + (base + i) for i = 0 .. n - 1, in order, without repetition *)
Definition sequential_ids (prefix : string) (base n : Z) (l : list record) : Prop :=
  Z.of_nat (length l) = n /\
  (forall i : nat, (i < length l)%nat ->
     l !! i ≫= (fun r => r !! "id")
     = Some (VStr (prefix +:+ pretty (base + Z.of_nat i)%Z))) /\
  NoDup ((fun r => r !! "id") <$> l).

(** ** Specifications of computations *)

(* m returns from every world, with a result that satisfies P *)
Definition total {W A} (m : M W A) (P : A -> Prop) : Prop :=
  forall w, exists a w', m w = Ok (a, w') /\ P a.

(* whenever m returns, its result satisfies P *)
Definition partial {W A} (m : M W A) (P : A -> Prop) : Prop :=
  forall w a w', m w = Ok (a, w') -> P a.

(** ** Concrete records used in the evaluations *)

Module Sample.
Definition lead1 : record :=
  list_to_map [("id", VStr "L1000"); ("name", VStr "Acme Ltd"); ("source", VStr "Web");
               ("date", VStr "2024-05-01"); ("status", VStr "Qualified")].
Definition lead2 : record :=
  list_to_map [("id", VStr "L1001"); ("name", VStr "Bolt Inc"); ("source", VStr "Event");
               ("date", VStr "2024-05-02"); ("status", VStr "New")].
Definition lead_null : record :=
  list_to_map [("id", VStr "L1002"); ("name", VNone); ("source", VStr "Web");
               ("date", VStr "2024-05-03"); ("status", VStr "New")].
Definition opp1 : record :=
  list_to_map [("id", VStr "O2000"); ("lead_id", VStr "L1000"); ("amount", VNum 1000);
               ("product", VStr "Product A"); ("stage", VStr "Demo");
               ("owner", VStr "Sales-1"); ("created_date", VStr "2024-04-01");
               ("close_date", VStr "2024-06-01")].
Definition opp2 : record :=
  list_to_map [("id", VStr "O2001"); ("lead_id", VStr "L1001"); ("amount", VNum 4000);
               ("product", VStr "Product B"); ("stage", VStr "Proposal");
               ("owner", VStr "Sales-2"); ("created_date", VStr "2024-04-02");
               ("close_date", VStr "2024-06-02")].
Definition opp_won : record :=
  list_to_map [("id", VStr "O2002"); ("lead_id", VStr "L1001"); ("amount", VNum 900);
               ("product", VStr "Product C"); ("stage", VStr "Closed Won");
               ("owner", VStr "Sales-3"); ("created_date", VStr "2024-04-03");
               ("close_date", VStr "2024-06-03")].
Definition deal (i : Z) (amount : Q) (status : string) : record :=
  list_to_map [("id", VStr (fmt_id "D" 3000 i)); ("opportunity_id", VStr "O2000");
               ("amount", VNum amount); ("close_date", VStr "2024-05-10");
               ("status", VStr status)].
Definition deal_won : record := deal 0 10000 "Closed Won".
Definition deal_lost : record := deal 1 2500 "Closed Lost".

(* a KPI mapping, with round figures *)
Definition kpis : gmap string kval :=
  list_to_map
    [("monthly_revenue", KNum 70000); ("average_deal_size", KNum 10000);
     ("win_rate", KNum 70); ("sales_cycle_days", KNum 30);
     ("quota_attainment", KNum 95); ("pipeline_value", KNum 5000);
     ("pipeline_velocity", KNum (350 # 3)); ("forecast_accuracy", KNum 90);
     ("stage_conversion",
      KDict (list_to_map [("Prospecting", 1 # 2); ("Qualification", 2 # 5);
                          ("Demo", 3 # 10)]));
     ("coverage_ratio", KNum (1 # 20)); ("lead_conversion_rate", KNum (51 # 4));
     ("cost_per_lead", KNum 120); ("mql_to_sql", KNum 35);
     ("website_conversion", KNum 3); ("cac", KNum 1200)].

Definition ten_deals : list record :=
  ((fun i => deal i 10000 "Closed Won") <$> seqZ 0 7)
  ++ ((fun i => deal i 3100 "Closed Lost") <$> seqZ 7 3).
Definition leads : list record := [lead1; lead2].
Definition opps : list record := [opp1; opp2; opp_won].
Definition deals : list record := [deal_won; deal_lost].
End Sample.

(** ** 4. Orchestrator *)

(* sep.join(l) *)
Fixpoint join (sep : string) (l : list string) : string :=
  match l with
  | [] => ""
  | [s] => s
  | s :: l' => s +:+ sep +:+ join sep l'
  end.

(* what a run hands to the dashboard: the arguments of display, and the
   text of st.warning when the quality scan found something *)
Record dashboard_input : Type := {
  di_kpis : gmap string kval;
  di_forecasts : gmap string kval;
  di_alerts : list string;
  di_warning : option string
}.

Module Orchestrator.
Section Run.
Context {W : Type} `{Runtime W}.
Variable str_num : Q -> string.

(* Orchestrator.run, up to the call of display *)
Definition run : M W dashboard_input :=
  data ← collect_data;
  let quality_issues := check_completeness str_num data in
  kpis ← calculate data;
  forecasts ← forecast kpis;
  let alerts := [] in
  let warning :=
    match quality_issues with
    | [] => None
    | _ => Some (join " " quality_issues)
    end in
  mret {| di_kpis := kpis; di_forecasts := forecasts;
          di_alerts := alerts; di_warning := warning |}.
End Run.
End Orchestrator.

(** ** Reference definitions for the generated records *)

(* the records of a collection that carry a number as amount *)
Definition with_amount (rs : list record) : list record :=
  List.filter
    (fun r => match cell "amount" r with VInt _ | VNum _ => true | _ => false end) rs.

(* the amount, when there is one, is not text *)
Definition nullable_amount (r : record) : Prop :=
  forall s, r !! "amount" <> Some (VStr s).

(* the metric [key] is a number between lo and hi *)
Definition metric_between (k : gmap string kval) (key : string) (lo hi : Q) : Prop :=
  exists q, k !! key = Some (KNum q) /\ (lo <= q)%Q /\ (q <= hi)%Q.

(* a whole number of hundredths *)
Definition in_cents (a : Q) : Prop := exists c : Z, (a == c # 100)%Q.

(* the field [key] of r is the text [s], one of [allowed] *)
Definition field_in (r : record) (key : string) (allowed : list string) : Prop :=
  exists s, r !! key = Some (VStr s) /\ s ∈ allowed.

(* the field [key] of r is prefix + n with lo <= n <= hi *)
Definition field_ref (r : record) (key prefix : string) (base lo hi : Z) : Prop :=
  exists n, r !! key = Some (VStr (fmt_id prefix base n)) /\ (lo <= n)%Z /\ (n <= hi)%Z.

(* the field amount of r is a price between 1000 and 50000, in cents *)
Definition field_amount (r : record) : Prop :=
  exists a, r !! "amount" = Some (VNum a)
            /\ (1000 <= a)%Q /\ (a <= 50000)%Q /\ in_cents a.

Definition lead_record (i : Z) (r : record) : Prop :=
  r !! "id" = Some (VStr (fmt_id "L" 1000 i)) /\
  field_in r "source" ["Web"; "Referral"; "Event"; "Cold Call"] /\
  field_in r "status" ["New"; "Contacted"; "Qualified"; "Disqualified"] /\
  dom r = list_to_set ["id"; "name"; "source"; "date"; "status"] /\
  has_null r = false.

Definition opportunity_record (i : Z) (r : record) : Prop :=
  r !! "id" = Some (VStr (fmt_id "O" 2000 i)) /\
  field_ref r "lead_id" "L" 1000 0 99 /\
  field_amount r /\
  field_in r "product" products /\
  field_in r "stage" stages /\
  (exists n, r !! "owner" = Some (VStr ("Sales-" +:+ pretty n)) /\ (1 <= n)%Z /\ (n <= 5)%Z) /\
  dom r = list_to_set ["id"; "lead_id"; "amount"; "product"; "stage"; "owner";
                       "created_date"; "close_date"] /\
  has_null r = false.

Definition closed_deal_record (i : Z) (r : record) : Prop :=
  r !! "id" = Some (VStr (fmt_id "D" 3000 i)) /\
  field_ref r "opportunity_id" "O" 2000 0 49 /\
  field_amount r /\
  field_in r "status" ["Closed Won"; "Closed Lost"] /\
  dom r = list_to_set ["id"; "opportunity_id"; "amount"; "close_date"; "status"] /\
  has_null r = false.

(* some record of the collection has the id [s] *)
Definition has_id (rs : list record) (s : string) : Prop :=
  exists r, r ∈ rs /\ r !! "id" = Some (VStr s).

(** ** Reference definitions for the calculator on any data *)

(* some record of the collection carries the key c: the frame built
   from the collection has the column c *)
Definition has_key (c : string) (rs : list record) : Prop :=
  exists r, r ∈ rs /\ is_Some (r !! c).

(* the metrics the calculator reads off the data *)
Definition data_keys : list string :=
  ["monthly_revenue"; "average_deal_size"; "win_rate"; "pipeline_value";
   "pipeline_velocity"; "coverage_ratio"; "lead_conversion_rate"].

(* the guarded ratio of the calculator: p over t times 100, 0 when t is not positive *)
Definition guarded_rate (p t : Z) : Q :=
  if (0 <? t)%Z then (inject_Z p / inject_Z t * 100)%Q else 0%Q.

(* the mean pandas gives over the records that carry a number: 0 over
   no record at all, NaN when none of the records carries a number *)
Definition mean_kval (rs : list record) : kval :=
  match rs with
  | [] => KNum 0
  | _ =>
      match with_amount rs with
      | [] => KNaN
      | ws => KNum (total_amount ws / count ws)
      end
  end.

(* the frame of the rows of rs whose cell under [key] passes the test f *)
Definition masked (key : string) (f : value -> bool) (rs : list record) : DataFrame :=
  select (frame_of rs) (f <$> (cell key <$> rows (frame_of rs))).

(* the three frames the calculator sums over *)
Definition won_frame (deals : list record) : DataFrame :=
  masked "status" (eq_str "Closed Won") deals.
Definition open_frame (opps : list record) : DataFrame :=
  masked "stage" (fun v => negb (isin ["Closed Won"; "Closed Lost"] v)) opps.

(* the mapping a run returned, and the empty one when it raised *)
Definition returned {W A} `{Empty A} (r : result (A * W)) : A :=
  match r with
  | Ok (a, _) => a
  | Err _ => ∅
  end.

(** ** A small data set for the evaluations *)

Module Tiny.
Definition mk_lead (status : string) : record :=
  list_to_map [("id", VStr "L1"); ("status", VStr status)].
Definition mk_opp (stage : string) (amount : value) : record :=
  list_to_map [("id", VStr "O1"); ("stage", VStr stage); ("amount", amount)].
Definition mk_deal (status : string) (amount : value) : record :=
  list_to_map [("id", VStr "D1"); ("status", VStr status); ("amount", amount)].

(* a closed deal without the key amount *)
Definition bare_deal (status : string) : record :=
  list_to_map [("id", VStr "D2"); ("status", VStr status)].

Definition data : list (string * list record) :=
  data_of [mk_lead "Qualified"; mk_lead "New"]
          [mk_opp "Demo" (VNum 4000)]
          [mk_deal "Closed Won" (VNum 900); mk_deal "Closed Lost" (VNum 50)].
End Tiny.

(** * Properties *)

(** ** Running a computation *)

Lemma bind_ok {W A B} (m : M W A) (k : A -> M W B) w a w1 :
  m w = Ok (a, w1) -> (x ← m; k x) w = k a w1.
Proof. intros Hm. unfold mbind, M_bind, M_then. now rewrite Hm. Qed.

Lemma bind_err {W A B} (m : M W A) (k : A -> M W B) w e :
  m w = Err e -> (x ← m; k x) w = Err e.
Proof. intros Hm. unfold mbind, M_bind, M_then. now rewrite Hm. Qed.

Lemma bind_inv {W A B} (m : M W A) (k : A -> M W B) w r :
  (x ← m; k x) w = Ok r -> exists a w1, m w = Ok (a, w1) /\ k a w1 = Ok r.
Proof.
  unfold mbind, M_bind, M_then.
  destruct (m w) as [[a w1]|e]; [eauto | discriminate].
Qed.

Lemma bind_assoc {W A B C} (m : M W A) (f : A -> M W B) (g : B -> M W C) w :
  (y ← (x ← m; f x); g y) w = (x ← m; y ← f x; g y) w.
Proof. unfold mbind, M_bind, M_then. now destruct (m w) as [[a w1]|e]. Qed.

Lemma lift_result_ok {W A} (r : result A) (w : W) a :
  r = Ok a -> lift_result r w = Ok (a, w).
Proof. now intros ->. Qed.

Lemma lift_state_run {W A} (f : W -> A * W) (w : W) :
  lift_state f w = Ok ((f w).1, (f w).2).
Proof. unfold lift_state. now destruct (f w). Qed.

Ltac run :=
  repeat (first
    [ erewrite bind_ok by (first [ reflexivity | eassumption
                                 | apply lift_result_ok; eassumption
                                 | apply lift_state_run ])
    | erewrite bind_err by (first [ reflexivity | eassumption ]) ];
    cbv beta zeta).

Lemma total_ret {W A} (a : A) (P : A -> Prop) : P a -> total (W := W) (mret a) P.
Proof. intros Ha w. now exists a, w. Qed.

Lemma total_bind {W A B} (m : M W A) (k : A -> M W B) (P : A -> Prop) (Q : B -> Prop) :
  total m P -> (forall a, P a -> total (k a) Q) -> total (x ← m; k x) Q.
Proof.
  intros Hm Hk w. destruct (Hm w) as (a & w1 & Hw & Ha).
  destruct (Hk a Ha w1) as (b & w2 & Hb & Hq).
  exists b, w2. split; [|assumption]. now rewrite (bind_ok _ _ _ _ _ Hw).
Qed.

Lemma total_lift_state {W A} (f : W -> A * W) (P : A -> Prop) :
  (forall w, P (f w).1) -> total (lift_state f) P.
Proof.
  intros Hf w. exists (f w).1, (f w).2. split; [|apply Hf].
  unfold lift_state. now destruct (f w).
Qed.

Lemma partial_ret {W A} (a : A) (P : A -> Prop) : P a -> partial (W := W) (mret a) P.
Proof. intros Ha w b w' [= <- _]. exact Ha. Qed.

Lemma partial_bind {W A B} (m : M W A) (k : A -> M W B) (P : A -> Prop) (Q : B -> Prop) :
  partial m P -> (forall a, P a -> partial (k a) Q) -> partial (x ← m; k x) Q.
Proof.
  intros Hm Hk w b w2 Hr. apply bind_inv in Hr as (a & w1 & Hw & Hb).
  exact (Hk a (Hm _ _ _ Hw) _ _ _ Hb).
Qed.

Lemma partial_any {W A} (m : M W A) : partial m (fun _ => True).
Proof. now intros w a w' _. Qed.

(** ** Frames *)

Lemma column_in c (df : DataFrame) :
  c ∈ columns df -> column c df = Ok (cell c <$> rows df).
Proof. intros Hc. unfold column. now rewrite decide_True. Qed.

Lemma columns_frame_of c (rs : list record) :
  c ∈ columns (frame_of rs) <-> exists r, r ∈ rs /\ is_Some (r !! c).
Proof.
  cbn. rewrite elem_of_union_list. split.
  - intros (X & HX & Hc). apply list_elem_of_fmap in HX as (r & -> & Hr).
    exists r. split; [assumption|]. now apply elem_of_dom.
  - intros (r & Hr & Hc). exists (dom r). split.
    + apply list_elem_of_fmap. eauto.
    + now apply elem_of_dom.
Qed.

Lemma rows_select (f : value -> bool) c (df : DataFrame) :
  rows (select df (f <$> (cell c <$> rows df)))
  = List.filter (fun r => f (cell c r)) (rows df).
Proof.
  cbn. induction (rows df) as [|r rs IH]; [reflexivity|].
  cbn. destruct (f (cell c r)); cbn; now rewrite IH.
Qed.

Lemma eq_str_cell key s (r : record) :
  eq_str s (cell key r) = bool_decide (r !! key = Some (VStr s)).
Proof.
  unfold cell. destruct (r !! key) as [[| t | z |q]|]; cbn; try reflexivity.
  destruct (decide (t = s)) as [->|Hne].
  - now rewrite !bool_decide_eq_true_2.
  - rewrite !bool_decide_eq_false_2; [reflexivity | congruence | assumption].
Qed.

Lemma open_stage_cell (r : record) :
  negb (isin ["Closed Won"; "Closed Lost"] (cell "stage" r)) = open_stage r.
Proof.
  unfold cell, open_stage. destruct (r !! "stage") as [[| t | z |q]|]; cbn; try reflexivity.
  destruct (decide (t = "Closed Won")) as [->|Hw]; [reflexivity|].
  destruct (decide (t = "Closed Lost")) as [->|Hl]; [reflexivity|].
  rewrite !bool_decide_eq_false_2; [reflexivity | congruence | congruence |].
  rewrite !elem_of_cons, elem_of_nil. tauto.
Qed.

(** ** The data-quality scan *)

Section QualityProperties.
Variable str_num : Q -> string.

Lemma has_null_iff (r : record) :
  has_null r = true <-> exists k, r !! k = Some VNone.
Proof.
  unfold has_null. rewrite existsb_exists. split.
  - intros ([k v] & Hin & Hv). cbn in Hv. destruct v; try discriminate.
    exists k. apply elem_of_map_to_list. now apply list_elem_of_In.
  - intros (k & Hk). exists (k, VNone). split; [|reflexivity].
    apply list_elem_of_In. now apply elem_of_map_to_list.
Qed.

(* the inner loop appends, in order, one issue per record with a null *)
Lemma inner_loop name (rs : list record) (issues : list string) :
  fold_left (check_record str_num name) rs issues
  = (issues ++ (issue str_num name <$> List.filter has_null rs))%list.
Proof.
  revert issues. induction rs as [|r rs IH]; intros issues; cbn.
  - now rewrite app_nil_r.
  - rewrite IH. unfold check_record. destruct (has_null r); cbn.
    + now rewrite <- app_assoc.
    + reflexivity.
Qed.

(* the outer loop visits the collections in the order of the mapping *)
Lemma outer_loop (data : list (string * list record)) (issues : list string) :
  fold_left
    (fun issues '(dataset_name, records) =>
       fold_left (check_record str_num dataset_name) records issues)
    data issues
  = (issues ++ concat ((fun '(name, rs) => issue str_num name <$> List.filter has_null rs)
                         <$> data))%list.
Proof.
  revert issues. induction data as [|[name rs] data IH]; intros issues; cbn.
  - now rewrite app_nil_r.
  - rewrite IH, inner_loop. now rewrite <- app_assoc.
Qed.
End QualityProperties.

Lemma issue_literal (str_num : Q -> string) (name : string) (r : record) :
  issue str_num name r = issue_text str_num name r.
Proof.
  unfold issue, issue_text, id_label, cell.
  now destruct (r !! "id") as [[| s | z | q]|].
Qed.

Lemma issues_literal (str_num : Q -> string) (name : string) (rs : list record) :
  issue str_num name <$> rs = issue_text str_num name <$> rs.
Proof. apply list_fmap_ext. intros i r _. apply issue_literal. Qed.

(** C7.  For every input mapping the quality checker returns one issue
    string for each record that has a null field and none for the other
    records, the collections in the order of the mapping and each group
    in the order of its collection: for the mapping of the three
    collections, the leads' issues first, then the opportunities', then
    the closed deals'.  It is a total function, so nothing is raised.
    The issue of a record is the text "Missing data in <collection>
    record <id>", a record has a null field exactly when some key maps
    to None, and a single record with a null field and the id s gives
    exactly the one issue "Missing data in <collection> record s". *)
Theorem check_completeness_issues (str_num : Q -> string)
    (data : list (string * list record)) (L O D : list record) :
  check_completeness str_num data
  = concat ((fun '(name, rs) => issue_text str_num name <$> List.filter has_null rs)
              <$> data)
  /\ check_completeness str_num (data_of L O D)
     = ((issue_text str_num "leads" <$> List.filter has_null L)
        ++ (issue_text str_num "opportunities" <$> List.filter has_null O)
        ++ (issue_text str_num "closed_deals" <$> List.filter has_null D))%list
  /\ (forall r : record, has_null r = true <-> exists k, r !! k = Some VNone)
  /\ (forall name (r : record) k s,
        r !! k = Some VNone -> r !! "id" = Some (VStr s) ->
        check_completeness str_num [(name, [r])]
        = ["Missing data in " +:+ name +:+ " record " +:+ s]).
Proof.
  split; [|split; [|split]].
  - unfold check_completeness. rewrite outer_loop. cbn.
    induction data as [|[name rs] data IH]; [reflexivity|].
    cbn. now rewrite IH, issues_literal.
  - unfold check_completeness, data_of. rewrite outer_loop. cbn.
    now rewrite app_nil_r, !issues_literal.
  - apply has_null_iff.
  - intros name r k s Hk Hid. unfold check_completeness. rewrite outer_loop. cbn.
    assert (has_null r = true) as -> by (apply has_null_iff; eauto).
    cbn. unfold issue, cell. now rewrite Hid.
Qed.

(* one record with an explicit null among the leads: one issue, naming it *)
Example check_completeness_sample :
  check_completeness Counter.str_num
    (data_of [Sample.lead1; Sample.lead_null; Sample.lead2] Sample.opps Sample.deals)
  = ["Missing data in leads record L1002"].
Proof. vm_compute. reflexivity. Qed.

(** ** The random module *)

Section RandomProperties.
Context {W : Type} `{Runtime W}.

Lemma total_choice {A} (seq : list A) :
  seq <> [] -> total (choice seq) (fun x => x ∈ seq).
Proof.
  intros Hne w. unfold choice. destruct seq as [|x0 xs]; [congruence|].
  set (seq := x0 :: xs) in *.
  pose proof (rt_randbelow_lt (length seq) w ltac:(cbn; lia)) as Hlt.
  destruct (rt_randbelow (length seq) w) as [i w1] eqn:Hi. cbn in Hlt.
  destruct (lookup_lt_is_Some_2 seq i Hlt) as [x Hx].
  exists x, w1. split.
  - erewrite bind_ok by apply lift_state_run.
    rewrite Hi. cbn. now rewrite Hx.
  - eapply list_elem_of_lookup_2, Hx.
Qed.

Lemma uniform_run a b (w : W) :
  uniform a b w = Ok ((a + (b - a) * (rt_random w).1)%Q, (rt_random w).2).
Proof.
  unfold uniform. now run.
Qed.

Lemma total_uniform a b :
  (a <= b)%Q -> total (uniform a b) (fun q => (a <= q)%Q /\ (q <= b)%Q).
Proof.
  intros Hab w. eexists _, _. split; [apply uniform_run|].
  destruct (rt_random_unit w) as [H0 H1]. set (u := (rt_random w).1) in *.
  assert (0 <= (b - a) * u)%Q as Hlo by (apply Qmult_le_0_compat; lra).
  assert (0 <= (b - a) * (1 - u))%Q as Hhi by (apply Qmult_le_0_compat; lra).
  split; lra.
Qed.

Lemma total_randint a b : total (randint a b) (fun _ => True).
Proof.
  intros w. unfold randint. eexists _, _. split; [|exact I].
  now run.
Qed.

Lemma total_choices2 {A} (a b : A) wa wb :
  total (choices2 a b wa wb) (fun x => x = a \/ x = b).
Proof.
  intros w. unfold choices2. eexists _, _. split.
  - now run.
  - cbn. destruct (Qle_bool _ _); auto.
Qed.

Lemma total_date k : total (date_in k) (fun _ => True).
Proof. now apply total_lift_state. Qed.

Lemma total_comprehension {A} (body : Z -> M W A) (P : Z -> A -> Prop) idx :
  (forall i, total (body i) (P i)) ->
  total (comprehension body idx) (Forall2 P idx).
Proof.
  intros Hbody. induction idx as [|i idx IH]; cbn.
  - apply total_ret. constructor.
  - eapply total_bind; [apply Hbody|]. intros a Ha.
    eapply total_bind; [apply IH|]. intros l Hl.
    apply total_ret. now constructor.
Qed.
End RandomProperties.

(** ** The generator *)

Lemma total_is_partial {W A} (m : M W A) (P : A -> Prop) : total m P -> partial m P.
Proof.
  intros Hm w a w' Hr. destruct (Hm w) as (a0 & w0 & Hr0 & Ha).
  rewrite Hr in Hr0. now injection Hr0 as -> _.
Qed.

Lemma fmt_id_inj prefix base i j : fmt_id prefix base i = fmt_id prefix base j -> i = j.
Proof.
  unfold fmt_id. intros Heq%(inj (String.app prefix))%(inj pretty). lia.
Qed.

Lemma sequential_ids_of prefix base n (l : list record) :
  (0 <= n)%Z ->
  Forall2 (fun i r => r !! "id" = Some (VStr (fmt_id prefix base i))) (range n) l ->
  sequential_ids prefix base n l.
Proof.
  intros Hn Hall. pose proof (Forall2_length _ _ _ Hall) as Hlen.
  unfold range in *. rewrite length_seqZ in Hlen.
  split; [lia|]. split.
  - intros i Hi. destruct (lookup_lt_is_Some_2 l i Hi) as [r Hr].
    assert (seqZ 0 n !! i = Some (0 + Z.of_nat i)%Z) as Hs by (apply lookup_seqZ_lt; lia).
    pose proof (Forall2_lookup_lr _ _ _ _ _ _ Hall Hs Hr) as Hid.
    rewrite Hr. cbn. rewrite Hid. reflexivity.
  - assert ((fun r : record => r !! "id") <$> l
            = (fun i => Some (VStr (fmt_id prefix base i))) <$> seqZ 0 n) as ->.
    { clear Hlen. induction Hall as [|i r idx l Hir _ IH]; [reflexivity|].
      cbn. now rewrite Hir, IH. }
    apply NoDup_fmap_2_strong; [|apply NoDup_seqZ].
    intros i j _ _ [= Heq]. eapply fmt_id_inj, Heq.
Qed.

Section GeneratorProperties.
Context {W : Type} `{Runtime W}.

Lemma lead_total i :
  total (lead i) (fun r =>
    r !! "id" = Some (VStr (fmt_id "L" 1000 i)) /\
    (exists s, r !! "source" = Some (VStr s)
               /\ s ∈ ["Web"; "Referral"; "Event"; "Cold Call"]) /\
    (exists t, r !! "status" = Some (VStr t)
               /\ t ∈ ["New"; "Contacted"; "Qualified"; "Disqualified"])).
Proof.
  unfold lead.
  eapply total_bind; [apply (total_lift_state _ (fun _ => True)); auto|].
  intros name _.
  eapply total_bind; [apply total_choice; discriminate|]. intros source Hsource.
  eapply total_bind; [apply total_randint|]. intros d _.
  eapply total_bind; [apply total_date|]. intros date _.
  eapply total_bind; [apply total_choice; discriminate|]. intros status Hstatus.
  apply total_ret. split; [reflexivity|].
  split; eexists; (split; [reflexivity | assumption]).
Qed.

Lemma opportunity_total i :
  total (opportunity i) (fun r => r !! "id" = Some (VStr (fmt_id "O" 2000 i))).
Proof.
  unfold opportunity.
  eapply total_bind; [apply total_randint|]. intros l _.
  eapply total_bind; [apply (total_uniform 1000 50000); lra|]. intros amount _.
  eapply total_bind; [apply total_choice; discriminate|]. intros product _.
  eapply total_bind; [apply total_choice; discriminate|]. intros stage _.
  eapply total_bind; [apply total_randint|]. intros o _.
  eapply total_bind; [apply total_randint|]. intros dc _.
  eapply total_bind; [apply total_date|]. intros created _.
  eapply total_bind; [apply total_randint|]. intros dd _.
  eapply total_bind; [apply total_date|]. intros close _.
  apply total_ret. reflexivity.
Qed.

Lemma closed_deal_total i :
  total (closed_deal i) (fun r => r !! "id" = Some (VStr (fmt_id "D" 3000 i))).
Proof.
  unfold closed_deal.
  eapply total_bind; [apply total_randint|]. intros o _.
  eapply total_bind; [apply (total_uniform 1000 50000); lra|]. intros amount _.
  eapply total_bind; [apply total_randint|]. intros d _.
  eapply total_bind; [apply total_date|]. intros close _.
  eapply total_bind; [apply total_choices2|]. intros status _.
  apply total_ret. reflexivity.
Qed.
End GeneratorProperties.

(** C6.  For every requested count N >= 0 and every state of the random
    source, each of generate_leads, generate_opportunities and
    generate_closed_deals returns (no exception is raised) exactly N
    records; the id of the i-th record is "L", "O" or "D" followed by
    1000 + i, 2000 + i or 3000 + i, and no id occurs twice.  With count 0
    the result is the empty list. *)
Theorem generators_sequential_ids {W} `{Runtime W} (N : Z) (w : W) :
  (0 <= N)%Z ->
  (exists l w', generate_leads N w = Ok (l, w') /\ sequential_ids "L" 1000 N l) /\
  (exists l w', generate_opportunities N w = Ok (l, w') /\ sequential_ids "O" 2000 N l) /\
  (exists l w', generate_closed_deals N w = Ok (l, w') /\ sequential_ids "D" 3000 N l) /\
  generate_leads 0 w = Ok ([], w) /\
  generate_opportunities 0 w = Ok ([], w) /\
  generate_closed_deals 0 w = Ok ([], w).
Proof.
  intros HN. repeat split; try reflexivity.
  - destruct (total_comprehension lead _ (range N) lead_total w) as (l & w' & Hr & Hl).
    exists l, w'. split; [exact Hr|]. apply sequential_ids_of; [exact HN|].
    eapply Forall2_impl; [exact Hl|]. now intros i r [Hid _].
  - destruct (total_comprehension opportunity _ (range N) opportunity_total w)
      as (l & w' & Hr & Hl).
    exists l, w'. split; [exact Hr|]. now apply sequential_ids_of.
  - destruct (total_comprehension closed_deal _ (range N) closed_deal_total w)
      as (l & w' & Hr & Hl).
    exists l, w'. split; [exact Hr|]. now apply sequential_ids_of.
Qed.

Lemma generators_sequential_ids_witness :
  (0 <= 3)%Z /\
  (exists l w', generate_leads 3 0%nat = Ok (l, w') /\ sequential_ids "L" 1000 3 l).
Proof.
  split; [lia|].
  exact (proj1 (generators_sequential_ids 3 0%nat ltac:(lia))).
Defined.

(** C9 (as amended).  Every record returned by generate_leads has its source in
    {Web, Referral, Event, Cold Call} and its status in
    {New, Contacted, Qualified, Disqualified}. *)
Theorem generate_leads_enums {W} `{Runtime W} (N : Z) (w w' : W) (l : list record) :
  generate_leads N w = Ok (l, w') ->
  forall r, r ∈ l ->
    (exists s, r !! "source" = Some (VStr s)
               /\ s ∈ ["Web"; "Referral"; "Event"; "Cold Call"]) /\
    (exists t, r !! "status" = Some (VStr t)
               /\ t ∈ ["New"; "Contacted"; "Qualified"; "Disqualified"]).
Proof.
  intros Hr r Hin.
  pose proof (total_is_partial _ _ (total_comprehension lead _ (range N) lead_total)
                _ _ _ Hr) as Hall.
  apply Forall2_Forall_r with (Q := fun r : record =>
    (exists s, r !! "source" = Some (VStr s)
               /\ s ∈ ["Web"; "Referral"; "Event"; "Cold Call"]) /\
    (exists t, r !! "status" = Some (VStr t)
               /\ t ∈ ["New"; "Contacted"; "Qualified"; "Disqualified"])) in Hall.
  - rewrite Forall_forall in Hall. now apply Hall.
  - apply Forall_forall. intros i _ r' (_ & Hs & Ht). now split.
Qed.

Lemma generate_leads_enums_witness :
  exists l w', generate_leads 2 3%nat = Ok (l, w') /\
    forall r, r ∈ l ->
      (exists s, r !! "source" = Some (VStr s)
                 /\ s ∈ ["Web"; "Referral"; "Event"; "Cold Call"]) /\
      (exists t, r !! "status" = Some (VStr t)
                 /\ t ∈ ["New"; "Contacted"; "Qualified"; "Disqualified"]).
Proof.
  assert (exists l w', generate_leads 2 3%nat = Ok (l, w')) as (l & w' & Hrun).
  { destruct (generate_leads 2 3%nat) as [[l w']|e] eqn:Hrun; [eauto | discriminate]. }
  exists l, w'. split; [exact Hrun|].
  exact (generate_leads_enums 2 3%nat w' l Hrun).
Defined.

(** C9 as stated fails: in the run of generate_leads 1 from the counter
    state 3 the only record has source "Cold Call", with a space, which
    is not one of Web, Referral, Event, ColdCall. *)
Lemma generate_leads_source_ColdCall_refuted :
  ~ (forall (W : Type) (R : Runtime W) (N : Z) (w w' : W) (l : list record),
       generate_leads N w = Ok (l, w') ->
       forall r, r ∈ l ->
         (exists s, r !! "source" = Some (VStr s)
                    /\ s ∈ ["Web"; "Referral"; "Event"; "ColdCall"]) /\
         (exists t, r !! "status" = Some (VStr t)
                    /\ t ∈ ["New"; "Contacted"; "Qualified"; "Disqualified"])).
Proof.
  intros Hclaim.
  set (r0 := (list_to_map
                [("id", VStr "L1000"); ("name", VStr "Acme Ltd");
                 ("source", VStr "Cold Call"); ("date", VStr "day-4");
                 ("status", VStr "Contacted")] : record)).
  assert (generate_leads 1 3%nat = Ok ([r0], 6%nat)) as Hrun by reflexivity.
  pose proof (Hclaim nat Counter.runtime 1%Z 3%nat 6%nat [r0] Hrun) as Hl.
  destruct (Hl r0 (list_elem_of_here _ _)) as [(s & Hs & Hin) _].
  assert (r0 !! "source" = Some (VStr "Cold Call")) as Hsrc by reflexivity.
  rewrite Hsrc in Hs. injection Hs as <-.
  repeat (apply elem_of_cons in Hin as [Hin|Hin]; [discriminate|]).
  now apply elem_of_nil in Hin.
Qed.

(** ** The KPI calculator on an empty collection

    A frame built from the empty list has no column, so the first
    column access on it raises KeyError: the guards against a zero
    denominator further down are never reached. *)

Lemma frame_of_nil c : c ∉ columns (frame_of []).
Proof. cbn. apply not_elem_of_empty. Qed.

Lemma column_frame_of_nil c : column c (frame_of []) = Err (KeyError c).
Proof. unfold column. rewrite decide_False; [reflexivity | apply frame_of_nil]. Qed.

(** C1 (the code departs from it).  With an empty closed-deals
    collection the calculator does not return a win_rate of 0: whatever
    the leads, the opportunities and the random source, it raises
    KeyError 'status'. *)
Theorem win_rate_empty_deals_raises {W} `{Runtime W} (L O : list record) (w : W) :
  calculate (data_of L O []) w = Err (KeyError "status").
Proof. reflexivity. Qed.

(** C2 (the code departs from it).  On the sample leads and
    opportunities and an empty closed-deals collection, whose subset of
    won deals is empty, the calculator returns no mapping, hence neither
    average_deal_size = 0 nor monthly_revenue = 0: it raises
    KeyError 'status'. *)
Theorem average_deal_size_empty_deals_raises :
  calculate (data_of Sample.leads Sample.opps []) 0%nat = Err (KeyError "status").
Proof. vm_compute. reflexivity. Qed.

(** C3 (the code departs from it).  With an empty lead collection, and
    opportunities and closed deals that carry the columns read before
    the leads are, the calculator raises KeyError 'status' instead of
    returning a lead_conversion_rate of 0. *)
Theorem lead_conversion_rate_empty_leads_raises {W} `{Runtime W}
    (O D : list record) (w : W) :
  "status" ∈ columns (frame_of D) ->
  "stage" ∈ columns (frame_of O) ->
  calculate (data_of [] O D) w = Err (KeyError "status").
Proof.
  intros HD%column_in HO%column_in. unfold calculate, data_of. now run.
Qed.

Lemma lead_conversion_rate_empty_leads_raises_witness :
  "status" ∈ columns (frame_of Sample.deals) /\
  "stage" ∈ columns (frame_of Sample.opps) /\
  calculate (data_of [] Sample.opps Sample.deals) 0%nat = Err (KeyError "status").
Proof.
  assert ("status" ∈ columns (frame_of Sample.deals)) as HD
    by (apply (bool_decide_unpack _); vm_compute; exact I).
  assert ("stage" ∈ columns (frame_of Sample.opps)) as HO
    by (apply (bool_decide_unpack _); vm_compute; exact I).
  split; [exact HD|]. split; [exact HO|].
  exact (lead_conversion_rate_empty_leads_raises Sample.opps Sample.deals 0%nat HD HO).
Defined.

(** C4 (the code departs from it).  With an empty opportunities
    collection, and closed deals that carry a status column, the
    calculator raises KeyError 'stage' instead of returning a
    pipeline_value of 0 (the sum over no opportunity). *)
Theorem pipeline_value_empty_opps_raises {W} `{Runtime W} (L D : list record) (w : W) :
  "status" ∈ columns (frame_of D) ->
  calculate (data_of L [] D) w = Err (KeyError "stage").
Proof.
  intros HD%column_in. unfold calculate, data_of. now run.
Qed.

Lemma pipeline_value_empty_opps_raises_witness :
  "status" ∈ columns (frame_of Sample.deals) /\
  calculate (data_of Sample.leads [] Sample.deals) 1%nat = Err (KeyError "stage").
Proof.
  assert ("status" ∈ columns (frame_of Sample.deals)) as HD
    by (apply (bool_decide_unpack _); vm_compute; exact I).
  split; [exact HD|].
  exact (pipeline_value_empty_opps_raises Sample.leads Sample.deals 1%nat HD).
Defined.

(** C5 (the code departs from it).  On the sample leads and closed
    deals and an empty opportunities collection, which has no open
    opportunity, the calculator does not return a coverage_ratio of 0:
    it raises KeyError 'stage'. *)
Theorem coverage_ratio_empty_opps_raises :
  calculate (data_of Sample.leads [] Sample.deals) 0%nat = Err (KeyError "stage").
Proof. vm_compute. reflexivity. Qed.

(** ** The KPI calculator on populated collections *)

Lemma Forall_list_filter {A} (P : A -> Prop) (f : A -> bool) l :
  Forall P l -> Forall P (List.filter f l).
Proof.
  rewrite !Forall_forall. intros Hl x Hx%list_elem_of_In%filter_In.
  apply Hl, list_elem_of_In, Hx.
Qed.

Lemma series_sum_amounts (rs : list record) :
  Forall numeric_amount rs -> series_sum (cell "amount" <$> rs) = Ok (total_amount rs).
Proof.
  induction 1 as [|r rs [[z Hq]|[q Hq]] _ IH]; [reflexivity| |];
    cbn; unfold cell at 1, amount_of; rewrite Hq; cbn; now rewrite IH.
Qed.

Lemma series_count_amounts (rs : list record) :
  Forall numeric_amount rs -> series_count (cell "amount" <$> rs) = Z.of_nat (length rs).
Proof.
  unfold series_count. intros Hall. f_equal.
  induction Hall as [|r rs [[z Hq]|[q Hq]] _ IH]; [reflexivity| |];
    cbn; unfold cell at 1; rewrite Hq; cbn; now rewrite IH.
Qed.

(* the code's masks select the collections the specification names *)
Lemma filter_eq_str key s (rs : list record) :
  List.filter (fun r => eq_str s (cell key r)) rs = having key s rs.
Proof. apply filter_ext. intros r. apply eq_str_cell. Qed.

Lemma filter_open (rs : list record) :
  List.filter (fun r => negb (isin ["Closed Won"; "Closed Lost"] (cell "stage" r))) rs
  = open_opportunities rs.
Proof. apply filter_ext. intros r. apply open_stage_cell. Qed.

Section Selection.
Variables (key : string) (f : value -> bool) (rs : list record).
Hypothesis Hamount : "amount" ∈ columns (frame_of rs).
Hypothesis Hnum : Forall numeric_amount rs.

Local Abbreviation sel := (select (frame_of rs) (f <$> (cell key <$> rows (frame_of rs)))).
Local Abbreviation kept := (List.filter (fun r => f (cell key r)) rs).

Lemma rows_sel : rows sel = kept.
Proof. apply (rows_select f key (frame_of rs)). Qed.

Lemma len_sel : len sel = Z.of_nat (length kept).
Proof. unfold len. now rewrite rows_sel. Qed.

Lemma amount_sum_sel : amount_sum sel = Ok (total_amount kept).
Proof.
  unfold amount_sum. rewrite (column_in "amount" sel Hamount), rows_sel. cbn.
  apply series_sum_amounts, Forall_list_filter, Hnum.
Qed.

Lemma amount_mean_sel :
  amount_mean sel
  = Ok (if (Z.of_nat (length kept) =? 0)%Z then KNaN
        else KNum (total_amount kept / inject_Z (Z.of_nat (length kept)))).
Proof.
  unfold amount_mean. rewrite (column_in "amount" sel Hamount), rows_sel. cbn.
  unfold series_mean.
  rewrite series_sum_amounts, series_count_amounts by apply Forall_list_filter, Hnum.
  reflexivity.
Qed.

Lemma empty_sel : empty sel = bool_decide (kept = []).
Proof.
  unfold empty. rewrite rows_sel.
  rewrite (bool_decide_eq_false_2 (columns sel = ∅)); [reflexivity|].
  cbn [columns select]. intros Hc. rewrite Hc in Hamount.
  now apply not_elem_of_empty in Hamount.
Qed.
End Selection.

(* the guarded ratio of the code is the percentage of the specification *)
Lemma guarded_ratio (p t : Z) (whole : Q) :
  (0 <= t)%Z -> (whole == inject_Z t)%Q ->
  ((if (0 <? t)%Z then inject_Z p / inject_Z t * 100 else 0)
   == percentage (inject_Z p) whole)%Q.
Proof.
  intros Ht Hw. unfold percentage.
  destruct (Qeq_bool whole 0) eqn:Hz.
  - apply Qeq_bool_iff in Hz. rewrite Hw in Hz.
    assert (t = 0)%Z as -> by (unfold Qeq in Hz; cbn in Hz; lia).
    reflexivity.
  - apply Qeq_bool_neq in Hz. rewrite Hw in Hz.
    assert ((0 <? t)%Z = true) as ->.
    { apply Z.ltb_lt. destruct (Z.eq_dec t 0%Z) as [->|]; [now elim Hz | lia]. }
    now rewrite Hw.
Qed.

Lemma first_record_column c (rs : list record) (P : record -> Prop) :
  rs <> [] -> Forall P rs -> (forall r, P r -> is_Some (r !! c)) ->
  c ∈ columns (frame_of rs).
Proof.
  intros Hne Hall HP. apply columns_frame_of.
  destruct rs as [|r rs']; [congruence|]. exists r.
  split; [apply list_elem_of_here|]. apply HP. now apply Forall_cons in Hall as [? _].
Qed.

Lemma average_step {W} (l : list record) (w : W) :
  (if negb (bool_decide (l = []))
   then lift_result
          (Ok (if (Z.of_nat (length l) =? 0)%Z then KNaN
               else KNum (total_amount l / inject_Z (Z.of_nat (length l)))))
   else mret (KNum 0)) w
  = Ok (KNum (mean_amount l), w).
Proof. destruct l; reflexivity. Qed.

Lemma coverage_step {W} (l : list record) (w : W) :
  (if negb (Z.of_nat (length l) =? 0)%Z
   then lift_result (and_then (Ok (total_amount l)) (fun t => Ok (t / 100000)%Q))
   else mret 0%Q) w
  = Ok (match l with [] => 0%Q | _ => (total_amount l / 100000)%Q end, w).
Proof. destruct l; reflexivity. Qed.

(** X21.  On collections that are not empty, whose records carry the
    fields of the data model and whose amounts are within reach of a
    64-bit sum, the calculator returns, and the metrics
    derived from the data are the ones the specification defines:
    monthly_revenue and average_deal_size are the sum and the mean of
    amount over the won deals (0 when there is none), win_rate is won
    over won plus lost times 100 (0 when there is neither),
    pipeline_value is the sum of amount over the open opportunities,
    pipeline_velocity is pipeline_value x 0.7 / 30, coverage_ratio is
    pipeline_value / 100000 (0 without open opportunity) and
    lead_conversion_rate is qualified over all leads times 100. *)
Theorem calculate_on_populated_data {W} `{Runtime W} (L O D : list record) (w : W) :
  L <> [] -> O <> [] -> D <> [] ->
  Forall lead_ok L -> Forall opportunity_ok O -> Forall deal_ok D ->
  within_int64 O -> within_int64 D ->
  exists k w',
    calculate (data_of L O D) w = Ok (k, w') /\
    metric k "monthly_revenue" (total_amount (closed_won D)) /\
    metric k "average_deal_size" (mean_amount (closed_won D)) /\
    metric k "win_rate"
      (percentage (count (closed_won D)) (count (closed_won D) + count (closed_lost D))) /\
    metric k "pipeline_value" (total_amount (open_opportunities O)) /\
    metric k "pipeline_velocity" (total_amount (open_opportunities O) * (7 # 10) / 30) /\
    metric k "coverage_ratio"
      (match open_opportunities O with
       | [] => 0
       | _ => total_amount (open_opportunities O) / 100000
       end) /\
    metric k "lead_conversion_rate" (percentage (count (qualified L)) (count L)).
Proof.
  intros HL HO HD HLok HOok HDok _ _.
  assert ("status" ∈ columns (frame_of L)) as HLs%column_in
    by (eapply first_record_column; eauto; now intros r [s ->]).
  assert ("stage" ∈ columns (frame_of O)) as HOs%column_in
    by (eapply first_record_column; eauto; now intros r [[s ->] _]).
  assert ("amount" ∈ columns (frame_of O)) as HOa
    by (eapply first_record_column; eauto; now intros r [_ [[z ->]|[q ->]]]).
  assert ("status" ∈ columns (frame_of D)) as HDs%column_in
    by (eapply first_record_column; eauto; now intros r [[s ->] _]).
  assert ("amount" ∈ columns (frame_of D)) as HDa
    by (eapply first_record_column; eauto; now intros r [_ [[z ->]|[q ->]]]).
  assert (Forall numeric_amount O) as HOn
    by (eapply Forall_impl; [exact HOok|]; now intros r [_ Hq]).
  assert (Forall numeric_amount D) as HDn
    by (eapply Forall_impl; [exact HDok|]; now intros r [_ Hq]).
  unfold calculate, data_of. run.
  rewrite !amount_sum_sel, !amount_mean_sel, !len_sel, !empty_sel by assumption.
  cbn [rows frame_of].
  rewrite !filter_eq_str, filter_open.
  fold (closed_won D) (closed_lost D) (qualified L).
  repeat (first [ erewrite bind_ok
                    by (first [ reflexivity | apply uniform_run
                              | apply average_step | apply coverage_step ])
                | rewrite bind_assoc ];
          cbv beta zeta; cbn [dict_comprehension and_then]).
  eexists _, _. split; [reflexivity|].
  repeat match goal with |- _ /\ _ => split end;
    (eexists; split; [reflexivity|]); try reflexivity.
  - apply guarded_ratio; [lia|]. unfold count. now rewrite inject_Z_plus.
  - apply guarded_ratio; [unfold len; lia | reflexivity].
Qed.

(** The figures of the specification's examples: seven won deals of
    10000 and three lost ones, two open opportunities of 1000 and 4000
    next to a closed one. *)
Example calculate_reference_figures :
  match calculate (data_of Sample.leads Sample.opps Sample.ten_deals) 0%nat with
  | Ok (k, _) =>
      metric_is k "monthly_revenue" 70000
      && metric_is k "average_deal_size" 10000
      && metric_is k "win_rate" 70
      && metric_is k "pipeline_value" 5000
      && metric_is k "pipeline_velocity" (350 # 3)
      && metric_is k "coverage_ratio" (5 # 100)
      && metric_is k "lead_conversion_rate" 50
  | Err _ => false
  end = true.
Proof. vm_compute. reflexivity. Qed.

(** ** The KPI mapping *)

Lemma partial_weaken {W A} (m : M W A) (P Q : A -> Prop) :
  partial m P -> (forall a, P a -> Q a) -> partial m Q.
Proof. intros Hm HPQ w a w' Hr. eauto. Qed.

Section MappingProperties.
Context {W : Type} `{Runtime W}.

Lemma dict_comprehension_partial (body : string -> M W Q) (R : Q -> Prop) keys acc :
  (forall k, partial (body k) R) ->
  partial (dict_comprehension body keys acc) (fun d =>
    dom d = dom acc ∪ list_to_set keys /\
    (map_Forall (fun _ => R) acc -> map_Forall (fun _ => R) d)).
Proof.
  intros Hbody. revert acc. induction keys as [|k keys IH]; intros acc; cbn.
  - apply partial_ret. split; [now rewrite union_empty_r_L | auto].
  - eapply partial_bind; [apply Hbody|]. intros v Hv.
    eapply partial_weaken; [apply IH|]. intros d [Hdom Hall]. split.
    + rewrite Hdom, dom_insert_L. apply set_eq. intros x.
      rewrite !elem_of_union, elem_of_singleton. tauto.
    + intros Hacc. apply Hall. now apply map_Forall_insert_2.
Qed.

Lemma stage_conversion_partial :
  partial
    (dict_comprehension (fun _ => uniform (2 # 10) (8 # 10))
       ["Prospecting"; "Qualification"; "Demo"] ∅)
    (fun d =>
       (forall s, is_Some (d !! s) <-> s ∈ stage_keys) /\
       (forall s v, d !! s = Some v -> (2 # 10 <= v)%Q /\ (v <= 8 # 10)%Q)).
Proof.
  eapply partial_weaken.
  - apply (dict_comprehension_partial _
             (fun v => (2 # 10 <= v)%Q /\ (v <= 8 # 10)%Q)).
    intros _. apply total_is_partial, total_uniform. lra.
  - intros d [Hdom Hall]. split.
    + intros s. rewrite <- elem_of_dom, Hdom, dom_empty_L, union_empty_l_L.
      apply elem_of_list_to_set.
    + intros s v Hs. exact (Hall (map_Forall_empty _) s v Hs).
Qed.
End MappingProperties.

(** C10.  Whenever the KPI calculator returns, the mapping it returns
    has exactly the fifteen keys monthly_revenue, average_deal_size,
    win_rate, sales_cycle_days, quota_attainment, pipeline_value,
    pipeline_velocity, forecast_accuracy, stage_conversion,
    coverage_ratio, lead_conversion_rate, cost_per_lead, mql_to_sql,
    website_conversion and cac; stage_conversion is a sub-mapping whose
    keys are exactly Prospecting, Qualification and Demo and whose values
    lie in [0.2, 0.8]. *)
Theorem calculate_keys {W} `{Runtime W} (data : list (string * list record))
    (w w' : W) (k : gmap string kval) :
  calculate data w = Ok (k, w') ->
  (forall key, is_Some (k !! key) <-> key ∈ kpi_keys) /\
  NoDup kpi_keys /\ length kpi_keys = 15%nat /\
  exists d, k !! "stage_conversion" = Some (KDict d) /\
    (forall s, is_Some (d !! s) <-> s ∈ stage_keys) /\
    (forall s v, d !! s = Some v -> (2 # 10 <= v)%Q /\ (v <= 8 # 10)%Q).
Proof.
  revert w k w'. change (partial (calculate data) (fun k =>
    (forall key, is_Some (k !! key) <-> key ∈ kpi_keys) /\
    NoDup kpi_keys /\ length kpi_keys = 15%nat /\
    exists d, k !! "stage_conversion" = Some (KDict d) /\
      (forall s, is_Some (d !! s) <-> s ∈ stage_keys) /\
      (forall s v, d !! s = Some v -> (2 # 10 <= v)%Q /\ (v <= 8 # 10)%Q))).
  unfold calculate.
  repeat (first
    [ eapply partial_bind; [apply stage_conversion_partial | intros d [Hkeys Hvals]]
    | eapply partial_bind; [apply partial_any | intros ? _] ];
    cbv zeta).
  apply partial_ret. split; [|split; [|split]].
  - intros key. rewrite <- elem_of_dom, dom_list_to_map_L, elem_of_list_to_set.
    reflexivity.
  - apply (bool_decide_unpack _). vm_compute. exact I.
  - reflexivity.
  - exists d. split; [reflexivity|]. now split.
Qed.

Lemma calculate_keys_witness :
  exists k w', calculate (data_of Sample.leads Sample.opps Sample.deals) 0%nat = Ok (k, w')
    /\ (forall key, is_Some (k !! key) <-> key ∈ kpi_keys).
Proof.
  assert (calculate (data_of Sample.leads Sample.opps Sample.deals) 0%nat
          = Ok (returned (calculate (data_of Sample.leads Sample.opps Sample.deals) 0%nat),
                10%nat)) as Hrun by reflexivity.
  eexists _, _. split; [exact Hrun|].
  eapply (calculate_keys (data_of Sample.leads Sample.opps Sample.deals) 0%nat), Hrun.
Defined.

(* the two metrics the forecaster reads are numbers *)
Lemma calculate_numeric {W} `{Runtime W} (data : list (string * list record)) :
  partial (calculate data) (fun k =>
    exists r c, k !! "monthly_revenue" = Some (KNum r)
                /\ k !! "lead_conversion_rate" = Some (KNum c)).
Proof.
  unfold calculate.
  repeat (eapply partial_bind; [apply partial_any | intros ? _]; cbv zeta).
  apply partial_ret. eexists _, _. split; reflexivity.
Qed.

(** ** The forecaster *)

Lemma int_of_truncation x : truncation_of x (int_of x).
Proof.
  destruct x as [n d]. unfold truncation_of, int_of, Qle, Qlt. cbn.
  pose proof (Z.quot_rem' n (Z.pos d)) as Hqr.
  split; intros Hs.
  - pose proof (Z.rem_bound_pos n (Z.pos d)). nia.
  - pose proof (Z.rem_bound_pos_neg n (Z.pos d)). nia.
Qed.

(** C8.  For every KPI mapping (monthly_revenue and lead_conversion_rate
    are numbers) and every state of the random source, the forecaster
    returns, raising nothing, a mapping of exactly two keys:
    next_30d_revenue is monthly_revenue times the multiplier m that
    random.uniform(0.9, 1.2) draws from that state, which lies in
    [0.9, 1.2], and next_30d_leads is lead_conversion_rate x 2 with its
    fractional part dropped.  Its only argument is the KPI mapping, and
    the one draw is all it takes from the random source. *)
Theorem forecast_returns {W} `{Runtime W} (kpis : gmap string kval) (r c : Q) (w : W) :
  kpis !! "monthly_revenue" = Some (KNum r) ->
  kpis !! "lead_conversion_rate" = Some (KNum c) ->
  exists f w' m n,
    uniform (9 # 10) (12 # 10) w = Ok (m, w') /\
    m = ((9 # 10) + ((12 # 10) - (9 # 10)) * (rt_random w).1)%Q /\
    w' = (rt_random w).2 /\
    forecast kpis w = Ok (f, w') /\
    (9 # 10 <= m)%Q /\ (m <= 12 # 10)%Q /\
    f !! "next_30d_revenue" = Some (KNum (r * m)) /\
    f !! "next_30d_leads" = Some (KNum (inject_Z n)) /\
    truncation_of (c * 2) n /\
    (forall key, is_Some (f !! key) <-> key ∈ ["next_30d_revenue"; "next_30d_leads"]).
Proof.
  intros Hr Hc.
  destruct (total_uniform (9 # 10) (12 # 10) ltac:(lra) w) as (m & w' & Hm & Hlo & Hhi).
  eexists _, w', m, (int_of (c * 2)).
  split; [exact Hm|].
  pose proof Hm as Hdraw. rewrite uniform_run in Hdraw. injection Hdraw as Hm' Hw'.
  split; [now rewrite Hm'|]. split; [now rewrite Hw'|].
  split; [|split; [exact Hlo | split; [exact Hhi|]]].
  - unfold forecast. rewrite Hr, Hc. cbn [default int_twice times]. now run.
  - split; [reflexivity|]. split; [reflexivity|]. split; [apply int_of_truncation|].
    intros key. rewrite <- elem_of_dom, dom_list_to_map_L, elem_of_list_to_set.
    reflexivity.
Qed.

Lemma forecast_returns_witness :
  Sample.kpis !! "monthly_revenue" = Some (KNum 70000) /\
  Sample.kpis !! "lead_conversion_rate" = Some (KNum (51 # 4)) /\
  exists f w' m n,
    uniform (9 # 10) (12 # 10) 5%nat = Ok (m, w') /\
    m = ((9 # 10) + ((12 # 10) - (9 # 10)) * (rt_random 5%nat).1)%Q /\
    w' = (rt_random 5%nat).2 /\
    forecast Sample.kpis 5%nat = Ok (f, w') /\
    (9 # 10 <= m)%Q /\ (m <= 12 # 10)%Q /\
    f !! "next_30d_revenue" = Some (KNum (70000 * m)) /\
    f !! "next_30d_leads" = Some (KNum (inject_Z n)) /\
    truncation_of ((51 # 4) * 2) n /\
    (forall key, is_Some (f !! key) <-> key ∈ ["next_30d_revenue"; "next_30d_leads"]).
Proof.
  split; [reflexivity|]. split; [reflexivity|].
  apply (forecast_returns Sample.kpis 70000 (51 # 4) 5%nat); reflexivity.
Defined.

(* the forecaster never raises on what the calculator returned *)
Corollary forecast_after_calculate {W} `{Runtime W} (data : list (string * list record))
    (w w1 w2 : W) (k : gmap string kval) :
  calculate data w = Ok (k, w1) ->
  exists f w3, forecast k w2 = Ok (f, w3).
Proof.
  intros (r & c & Hr & Hc)%calculate_numeric.
  unfold forecast. rewrite Hr, Hc. cbn [default int_twice times].
  erewrite bind_ok by reflexivity.
  erewrite bind_ok by apply uniform_run.
  eexists _, _. reflexivity.
Qed.

(** ** More on the generator *)

Section GeneratorFields.
Context {W : Type} `{Runtime W}.

Lemma total_randint_range a b :
  (a <= b)%Z -> total (randint a b) (fun z => (a <= z)%Z /\ (z <= b)%Z).
Proof.
  intros Hab w. unfold randint. eexists _, _. split; [now run|].
  pose proof (rt_randbelow_lt (Z.to_nat (b - a + 1)) w ltac:(lia)) as Hlt.
  cbn. lia.
Qed.
End GeneratorFields.

Lemma round_half_even_bounds (q : Q) (A B : Z) :
  (inject_Z A <= q)%Q -> (q <= inject_Z B)%Q ->
  (A <= round_half_even q)%Z /\ (round_half_even q <= B)%Z.
Proof.
  intros HA HB.
  assert (A <= Qfloor q)%Z as Hlo.
  { rewrite <- (Qfloor_Z A). now apply Qfloor_resp_le. }
  assert (Qfloor q <= B)%Z as Hhi.
  { rewrite <- (Qfloor_Z B). now apply Qfloor_resp_le. }
  pose proof (Qfloor_le q) as Hf.
  assert ((1 # 2 <= q - inject_Z (Qfloor q))%Q -> (Qfloor q + 1 <= B)%Z) as Hup.
  { intros Hhalf. assert (inject_Z (Qfloor q) < inject_Z B)%Q as Hlt by lra.
    rewrite <- Zlt_Qlt in Hlt. lia. }
  unfold round_half_even.
  destruct (Qcompare_spec (q - inject_Z (Qfloor q)) (1 # 2)) as [Heq|Hlt|Hgt].
  - destruct (Z.even (Qfloor q)); [lia|]. split; [lia|]. apply Hup. lra.
  - lia.
  - split; [lia|]. apply Hup. lra.
Qed.

Lemma round2_price (x : Q) :
  (1000 <= x)%Q -> (x <= 50000)%Q ->
  (1000 <= round2 x)%Q /\ (round2 x <= 50000)%Q /\ in_cents (round2 x).
Proof.
  intros Hlo Hhi.
  destruct (round_half_even_bounds (x * 100) 100000 5000000) as [Ha Hb];
    [unfold inject_Z; lra | unfold inject_Z; lra |].
  unfold round2. set (c := round_half_even (x * 100)) in *.
  rewrite Zle_Qle in Ha, Hb.
  assert (100000 <= inject_Z c)%Q as Ha' by exact Ha.
  assert (inject_Z c <= 5000000)%Q as Hb' by exact Hb.
  assert (inject_Z c / 100 == c # 100)%Q as Hc.
  { unfold Qeq, Qdiv, Qmult, Qinv, inject_Z. cbn. lia. }
  repeat split.
  - apply Qle_shift_div_l; [reflexivity | lra].
  - apply Qle_shift_div_r; [reflexivity | lra].
  - now exists c.
Qed.

Section GeneratedRecords.
Context {W : Type} `{Runtime W}.

Lemma lead_generated i : total (lead i) (lead_record i).
Proof.
  unfold lead.
  eapply total_bind; [apply (total_lift_state _ (fun _ => True)); auto|].
  intros name _.
  eapply total_bind; [apply total_choice; discriminate|]. intros source Hsource.
  eapply total_bind; [apply total_randint|]. intros d _.
  eapply total_bind; [apply total_date|]. intros date _.
  eapply total_bind; [apply total_choice; discriminate|]. intros status Hstatus.
  apply total_ret. split; [reflexivity|].
  split; [now exists source|]. split; [now exists status|].
  split; [now rewrite dom_list_to_map_L | reflexivity].
Qed.

Lemma opportunity_generated i : total (opportunity i) (opportunity_record i).
Proof.
  unfold opportunity.
  eapply total_bind; [apply (total_randint_range 0 99); lia|]. intros l [Hl0 Hl1].
  eapply total_bind; [apply (total_uniform 1000 50000); lra|]. intros amount [Ha0 Ha1].
  eapply total_bind; [apply total_choice; discriminate|]. intros product Hproduct.
  eapply total_bind; [apply total_choice; discriminate|]. intros stage Hstage.
  eapply total_bind; [apply (total_randint_range 1 5); lia|]. intros o [Ho0 Ho1].
  eapply total_bind; [apply total_randint|]. intros dc _.
  eapply total_bind; [apply total_date|]. intros created _.
  eapply total_bind; [apply total_randint|]. intros dd _.
  eapply total_bind; [apply total_date|]. intros close _.
  apply total_ret. split; [reflexivity|].
  split; [now exists l|].
  split; [exists (round2 amount); split; [reflexivity | now apply round2_price]|].
  split; [now exists product|]. split; [now exists stage|].
  split; [now exists o|].
  split; [now rewrite dom_list_to_map_L | reflexivity].
Qed.

Lemma closed_deal_generated i : total (closed_deal i) (closed_deal_record i).
Proof.
  unfold closed_deal.
  eapply total_bind; [apply (total_randint_range 0 49); lia|]. intros o [Ho0 Ho1].
  eapply total_bind; [apply (total_uniform 1000 50000); lra|]. intros amount [Ha0 Ha1].
  eapply total_bind; [apply total_randint|]. intros d _.
  eapply total_bind; [apply total_date|]. intros close _.
  eapply total_bind; [apply total_choices2|]. intros status Hstatus.
  apply total_ret. split; [reflexivity|].
  split; [now exists o|].
  split; [exists (round2 amount); split; [reflexivity | now apply round2_price]|].
  split.
  { exists status. split; [reflexivity|].
    destruct Hstatus as [-> | ->]; [apply list_elem_of_here|].
    apply list_elem_of_further, list_elem_of_here. }
  split; [now rewrite dom_list_to_map_L | reflexivity].
Qed.
End GeneratedRecords.

Lemma Forall2_elem_of_r {A B} (P : A -> B -> Prop) (l : list A) (k : list B) (y : B) :
  Forall2 P l k -> y ∈ k -> exists x, x ∈ l /\ P x y.
Proof.
  intros Hall Hy. induction Hall as [|x y' l k Hxy _ IH]; [now apply elem_of_nil in Hy|].
  apply elem_of_cons in Hy as [->|Hy].
  - exists x. split; [apply list_elem_of_here | assumption].
  - destruct (IH Hy) as (x' & Hx' & HP). exists x'. split; [|assumption].
    now apply list_elem_of_further.
Qed.

Lemma elem_of_range i n : i ∈ range n <-> (0 <= i)%Z /\ (i < n)%Z.
Proof. unfold range. rewrite elem_of_seqZ. lia. Qed.

Section GeneratedCollections.
Context {W : Type} `{Runtime W}.

Lemma generate_leads_records N :
  total (generate_leads N) (Forall2 lead_record (range N)).
Proof. apply total_comprehension, lead_generated. Qed.

Lemma generate_opportunities_records N :
  total (generate_opportunities N) (Forall2 opportunity_record (range N)).
Proof. apply total_comprehension, opportunity_generated. Qed.

Lemma generate_closed_deals_records N :
  total (generate_closed_deals N) (Forall2 closed_deal_record (range N)).
Proof. apply total_comprehension, closed_deal_generated. Qed.

Lemma collect_data_records :
  total collect_data (fun data =>
    exists ls os ds, data = data_of ls os ds /\
      Forall2 lead_record (range 100) ls /\
      Forall2 opportunity_record (range 50) os /\
      Forall2 closed_deal_record (range 30) ds).
Proof.
  unfold collect_data.
  eapply total_bind; [apply generate_leads_records|]. intros ls Hls.
  eapply total_bind; [apply generate_opportunities_records|]. intros os Hos.
  eapply total_bind; [apply generate_closed_deals_records|]. intros ds Hds.
  apply total_ret. now exists ls, os, ds.
Qed.
End GeneratedCollections.

(** X1.  Every record generate_opportunities returns is the i-th one
    for some 0 <= i < N: its lead_id is "L" + n with 1000 <= n <= 1099,
    its amount is a number of cents between 1000 and 50000, its product
    and stage are drawn from the generator's lists, its owner is
    Sales-1 .. Sales-5, it has exactly the eight keys of an opportunity
    and no field is None. *)
Theorem generate_opportunities_fields {W} `{Runtime W} (N : Z) (w : W) :
  exists l w', generate_opportunities N w = Ok (l, w') /\
    forall r, r ∈ l -> exists i, (0 <= i)%Z /\ (i < N)%Z /\ opportunity_record i r.
Proof.
  destruct (generate_opportunities_records N w) as (l & w' & Hrun & Hall).
  exists l, w'. split; [exact Hrun|]. intros r Hr.
  destruct (Forall2_elem_of_r _ _ _ _ Hall Hr) as (i & Hi & Hrec).
  apply elem_of_range in Hi as [Hi0 HiN]. now exists i.
Qed.

(** X2.  Every record generate_closed_deals returns is the i-th one for
    some 0 <= i < N: its opportunity_id is "O" + n with
    2000 <= n <= 2049, its amount is a number of cents between 1000 and
    50000, its status is Closed Won or Closed Lost, it has exactly the
    five keys of a closed deal and no field is None. *)
Theorem generate_closed_deals_fields {W} `{Runtime W} (N : Z) (w : W) :
  exists l w', generate_closed_deals N w = Ok (l, w') /\
    forall r, r ∈ l -> exists i, (0 <= i)%Z /\ (i < N)%Z /\ closed_deal_record i r.
Proof.
  destruct (generate_closed_deals_records N w) as (l & w' & Hrun & Hall).
  exists l, w'. split; [exact Hrun|]. intros r Hr.
  destruct (Forall2_elem_of_r _ _ _ _ Hall Hr) as (i & Hi & Hrec).
  apply elem_of_range in Hi as [Hi0 HiN]. now exists i.
Qed.

(** X3.  A count that is zero or negative gives the empty list from each
    generator, and the random source is left as it was: nothing is
    drawn. *)
Theorem generators_nonpositive_count {W} `{Runtime W} (N : Z) (w : W) :
  (N <= 0)%Z ->
  generate_leads N w = Ok ([], w) /\
  generate_opportunities N w = Ok ([], w) /\
  generate_closed_deals N w = Ok ([], w).
Proof.
  intros HN.
  assert (range N = []) as Hrange.
  { unfold range, seqZ. replace (Z.to_nat N) with 0%nat by lia. reflexivity. }
  unfold generate_leads, generate_opportunities, generate_closed_deals.
  rewrite Hrange. repeat split; reflexivity.
Qed.

Lemma generators_nonpositive_count_witness :
  (-4 <= 0)%Z /\
  generate_leads (-4) 7%nat = Ok ([], 7%nat) /\
  generate_opportunities (-4) 7%nat = Ok ([], 7%nat) /\
  generate_closed_deals (-4) 7%nat = Ok ([], 7%nat).
Proof.
  split; [lia|]. apply (generators_nonpositive_count (-4) 7%nat). lia.
Defined.

(** ** The collector *)

Lemma range_has_record (P : Z -> record -> Prop) (n i : Z) (l : list record) :
  Forall2 P (range n) l -> (0 <= i)%Z -> (i < n)%Z -> exists r, r ∈ l /\ P i r.
Proof.
  intros Hall Hi0 Hin.
  assert (range n !! Z.to_nat i = Some i) as Hi.
  { unfold range. rewrite lookup_seqZ. lia. }
  destruct (Forall2_lookup_l _ _ _ _ _ Hall Hi) as (r & Hr & HP).
  exists r. split; [|exact HP]. eapply list_elem_of_lookup_2, Hr.
Qed.

(** X4.  From every state of the random source collect_data returns the
    mapping with the keys leads, opportunities and closed_deals, in that
    order, holding 100, 50 and 30 records whose ids run from L1000,
    O2000 and D3000 without repetition. *)
Theorem collect_data_shape {W} `{Runtime W} (w : W) :
  exists ls os ds w',
    collect_data w = Ok ([("leads", ls); ("opportunities", os); ("closed_deals", ds)], w') /\
    sequential_ids "L" 1000 100 ls /\
    sequential_ids "O" 2000 50 os /\
    sequential_ids "D" 3000 30 ds.
Proof.
  destruct (collect_data_records w) as (data & w' & Hrun & ls & os & ds & -> & Hls & Hos & Hds).
  exists ls, os, ds, w'. split; [exact Hrun|].
  split; [|split]; (apply sequential_ids_of; [lia|]);
    (eapply Forall2_impl; [eassumption|]); now intros i r [Hid _].
Qed.

(** X5.  In the mapping collect_data returns every reference resolves:
    the lead_id of each opportunity is the id of one of the 100 leads,
    and the opportunity_id of each closed deal is the id of one of the 50
    opportunities. *)
Theorem collect_data_references_resolve {W} `{Runtime W} (w : W) :
  exists ls os ds w',
    collect_data w = Ok (data_of ls os ds, w') /\
    (forall o, o ∈ os -> exists s, o !! "lead_id" = Some (VStr s) /\ has_id ls s) /\
    (forall d, d ∈ ds -> exists s, d !! "opportunity_id" = Some (VStr s) /\ has_id os s).
Proof.
  destruct (collect_data_records w) as (data & w' & Hrun & ls & os & ds & -> & Hls & Hos & Hds).
  exists ls, os, ds, w'. split; [exact Hrun|]. split.
  - intros o Ho. destruct (Forall2_elem_of_r _ _ _ _ Hos Ho) as (i & _ & Hrec).
    destruct Hrec as (_ & (n & Hn & Hn0 & Hn1) & _).
    exists (fmt_id "L" 1000 n). split; [exact Hn|].
    destruct (range_has_record _ 100 n ls Hls) as (r & Hr & Hid & _); [lia | lia |].
    now exists r.
  - intros d Hd. destruct (Forall2_elem_of_r _ _ _ _ Hds Hd) as (i & _ & Hrec).
    destruct Hrec as (_ & (n & Hn & Hn0 & Hn1) & _).
    exists (fmt_id "O" 2000 n). split; [exact Hn|].
    destruct (range_has_record _ 50 n os Hos) as (r & Hr & Hid & _); [lia | lia |].
    now exists r.
Qed.

(** ** More on the data-quality scan *)

Section ScanProperties.
Variable str_num : Q -> string.

Lemma check_completeness_concat (data : list (string * list record)) :
  check_completeness str_num data
  = concat ((fun '(name, rs) => issue str_num name <$> List.filter has_null rs) <$> data).
Proof. unfold check_completeness. now rewrite outer_loop. Qed.

Lemma filter_nil_iff {A} (f : A -> bool) (l : list A) :
  List.filter f l = [] <-> forall x, x ∈ l -> f x = false.
Proof.
  induction l as [|a l IH]; cbn.
  - split; [|reflexivity]. intros _ x Hx. now apply elem_of_nil in Hx.
  - destruct (f a) eqn:Hfa; split.
    + discriminate.
    + intros Hall. rewrite (Hall a (list_elem_of_here _ _)) in Hfa. discriminate.
    + intros Hnil x [->|Hx]%elem_of_cons; [assumption | now apply IH].
    + intros Hall. apply IH. intros x Hx. apply Hall. now apply list_elem_of_further.
Qed.
End ScanProperties.

Lemma fmap_eq_nil {A B} (f : A -> B) (l : list A) : f <$> l = [] <-> l = [].
Proof. split; [apply fmap_nil_inv | now intros ->]. Qed.

(** X6.  For any mapping, whatever its keys and their order, the scan
    returns no issue exactly when no record of any collection has a
    None value. *)
Theorem check_completeness_nil_iff (str_num : Q -> string)
    (data : list (string * list record)) :
  check_completeness str_num data = []
  <-> forall name rs (r : record),
        (name, rs) ∈ data -> r ∈ rs -> forall k, r !! k <> Some VNone.
Proof.
  rewrite check_completeness_concat. induction data as [|[name rs] data IH]; cbn.
  - split; [|reflexivity]. intros _ name rs r Hin. now apply elem_of_nil in Hin.
  - rewrite app_nil, fmap_eq_nil, IH, filter_nil_iff. split.
    + intros [Hrs Hdata] name' rs' r [[= -> ->]|Hin]%elem_of_cons Hr k Hk.
      * assert (has_null r = true) as Hnull by (apply has_null_iff; eauto).
        rewrite (Hrs r Hr) in Hnull. discriminate.
      * exact (Hdata name' rs' r Hin Hr k Hk).
    + intros Hall. split.
      * intros r Hr. destruct (has_null r) eqn:Hnull; [|reflexivity].
        apply has_null_iff in Hnull as [k Hk].
        now destruct (Hall name rs r (list_elem_of_here _ _) Hr k).
      * intros name' rs' r Hin. apply (Hall name' rs' r).
        now apply list_elem_of_further.
Qed.

(** X7.  The scan of two mappings put one after the other is the issues
    of the first followed by the issues of the second. *)
Theorem check_completeness_app (str_num : Q -> string)
    (d1 d2 : list (string * list record)) :
  check_completeness str_num (d1 ++ d2)
  = (check_completeness str_num d1 ++ check_completeness str_num d2)%list.
Proof.
  rewrite !check_completeness_concat, fmap_app. apply concat_app.
Qed.

(** X8.  A record that has a None value and either lacks the key id or
    has None as its id is reported under the label None. *)
Theorem check_completeness_missing_id (str_num : Q -> string) (name : string)
    (r : record) (k : string) :
  r !! k = Some VNone ->
  r !! "id" = None \/ r !! "id" = Some VNone ->
  check_completeness str_num [(name, [r])]
  = ["Missing data in " +:+ name +:+ " record None"].
Proof.
  intros Hk Hid. rewrite check_completeness_concat. cbn.
  assert (has_null r = true) as -> by (apply has_null_iff; eauto).
  cbn. unfold issue, cell. now destruct Hid as [-> | ->].
Qed.

Lemma check_completeness_missing_id_witness :
  (<["name" := VNone]> (∅ : record)) !! "name" = Some VNone /\
  check_completeness Counter.str_num [("leads", [<["name" := VNone]> (∅ : record)])]
  = ["Missing data in leads record None"].
Proof.
  split; [reflexivity|].
  apply (check_completeness_missing_id Counter.str_num "leads" _ "name");
    [reflexivity | left; reflexivity].
Defined.

Lemma no_null_filter (P : Z -> record -> Prop) idx (rs : list record) :
  (forall i r, P i r -> has_null r = false) ->
  Forall2 P idx rs -> List.filter has_null rs = [].
Proof.
  intros HP Hall. apply filter_nil_iff. intros r Hr.
  destruct (Forall2_elem_of_r _ _ _ _ Hall Hr) as (i & _ & Hrec). eauto.
Qed.

Lemma scan_generated (str_num : Q -> string) n1 n2 n3 (ls os ds : list record) :
  Forall2 lead_record (range n1) ls ->
  Forall2 opportunity_record (range n2) os ->
  Forall2 closed_deal_record (range n3) ds ->
  check_completeness str_num (data_of ls os ds) = [].
Proof.
  intros Hls Hos Hds. rewrite check_completeness_concat. cbn.
  rewrite (no_null_filter _ _ _ (fun i r (Hr : lead_record i r) =>
             proj2 (proj2 (proj2 (proj2 Hr)))) Hls).
  rewrite (no_null_filter opportunity_record _ _ ltac:(unfold opportunity_record; tauto) Hos).
  rewrite (no_null_filter closed_deal_record _ _ ltac:(unfold closed_deal_record; tauto) Hds).
  reflexivity.
Qed.

(** X9.  On the mapping collect_data returns the scan finds nothing: the
    generator never leaves a field None. *)
Theorem check_completeness_generated {W} `{Runtime W} (str_num : Q -> string) (w : W) :
  exists data w', collect_data w = Ok (data, w') /\ check_completeness str_num data = [].
Proof.
  destruct (collect_data_records w) as (data & w' & Hrun & ls & os & ds & -> & Hls & Hos & Hds).
  exists (data_of ls os ds), w'. split; [exact Hrun|].
  eapply scan_generated; eassumption.
Qed.

(** ** The calculator on any data *)

Lemma lift_result_inv {W A} (r : result A) (w w' : W) a :
  lift_result r w = Ok (a, w') -> r = Ok a /\ w' = w.
Proof. destruct r; cbn; [intros [= -> ->]; auto | discriminate]. Qed.

Lemma branch_inv {W A} (c : bool) (r : result A) (v : A) (w w' : W) a :
  (if c then lift_result r else mret v) w = Ok (a, w') ->
  (if c then r else Ok v) = Ok a /\ w' = w.
Proof.
  destruct c; [apply lift_result_inv|]. intros [= -> ->]. auto.
Qed.

Lemma column_inv c (df : DataFrame) s :
  column c df = Ok s -> c ∈ columns df /\ s = cell c <$> rows df.
Proof. unfold column. destruct (decide _); [intros [= <-]; auto | discriminate]. Qed.

Lemma column_not_in c (df : DataFrame) :
  c ∉ columns df -> column c df = Err (KeyError c).
Proof. intros Hc. unfold column. now rewrite decide_False. Qed.

Lemma rows_masked key f (rs : list record) :
  rows (masked key f rs) = List.filter (fun r => f (cell key r)) rs.
Proof. apply (rows_select f key (frame_of rs)). Qed.

Lemma rows_won_frame (D : list record) : rows (won_frame D) = closed_won D.
Proof. unfold won_frame. rewrite rows_masked. apply filter_eq_str. Qed.

Lemma rows_open_frame (O : list record) : rows (open_frame O) = open_opportunities O.
Proof. unfold open_frame. rewrite rows_masked. apply filter_open. Qed.

(* invert the next step of a run that returned *)
Tactic Notation "step" hyp(H) "as" ident(a) ident(Hs) :=
  let w1 := fresh "w" in
  apply bind_inv in H as (a & w1 & Hs & H); cbv beta zeta in H;
  first [ apply lift_result_inv in Hs as [Hs ->]
        | apply branch_inv in Hs as [Hs ->]
        | idtac ].

(* what a run of the calculator that returned has computed: the figures
   read off the data are fixed by the data alone *)
Lemma calculate_inv {W} `{Runtime W} (data : list (string * list record))
    (w w' : W) (k : gmap string kval) :
  calculate data w = Ok (k, w') ->
  exists L O D rev avg pv cov,
    getitem "leads" data = Ok L /\
    getitem "opportunities" data = Ok O /\
    getitem "closed_deals" data = Ok D /\
    amount_sum (won_frame D) = Ok rev /\
    (if negb (empty (won_frame D)) then amount_mean (won_frame D) else Ok (KNum 0))
    = Ok avg /\
    amount_sum (open_frame O) = Ok pv /\
    cov = match open_opportunities O with [] => 0%Q | _ => (pv / 100000)%Q end /\
    k !! "monthly_revenue" = Some (KNum rev) /\
    k !! "average_deal_size" = Some avg /\
    k !! "win_rate"
    = Some (KNum (guarded_rate (Z.of_nat (length (closed_won D)))
                    (Z.of_nat (length (closed_won D))
                     + Z.of_nat (length (closed_lost D))))) /\
    k !! "pipeline_value" = Some (KNum pv) /\
    k !! "pipeline_velocity" = Some (KNum (pv * (7 # 10) / 30)) /\
    k !! "coverage_ratio" = Some (KNum cov) /\
    k !! "lead_conversion_rate"
    = Some (KNum (guarded_rate (Z.of_nat (length (qualified L))) (Z.of_nat (length L)))).
Proof.
  intros Hrun. unfold calculate in Hrun.
  step Hrun as L HL. step Hrun as O HO. step Hrun as D HD.
  step Hrun as won_mask Hwon. step Hrun as lost_mask Hlost.
  step Hrun as stage Hstage. step Hrun as status Hstatus.
  apply column_inv in Hwon as [_ ->], Hlost as [_ ->], Hstage as [_ ->], Hstatus as [_ ->].
  fold (masked "status" (eq_str "Closed Won") D) in Hrun.
  fold (masked "status" (eq_str "Closed Lost") D) in Hrun.
  fold (masked "stage" (fun v => negb (isin ["Closed Won"; "Closed Lost"] v)) O) in Hrun.
  fold (masked "status" (eq_str "Qualified") L) in Hrun.
  fold (won_frame D) (open_frame O) in Hrun.
  step Hrun as rev Hrev. step Hrun as avg Havg.
  step Hrun as u1 Hu1. step Hrun as u2 Hu2.
  step Hrun as pv Hpv. step Hrun as vel Hvel.
  step Hrun as u3 Hu3. step Hrun as sc Hsc.
  step Hrun as cov Hcov.
  step Hrun as u4 Hu4. step Hrun as u5 Hu5. step Hrun as u6 Hu6. step Hrun as u7 Hu7.
  injection Hrun as <- <-.
  rewrite Hpv in Hvel, Hcov. cbn in Hvel, Hcov. injection Hvel as <-.
  exists L, O, D, rev, avg, pv, cov.
  revert Hcov. unfold len. rewrite ?rows_won_frame, ?rows_open_frame.
  unfold masked. rewrite ?rows_select, ?filter_eq_str. cbn [rows frame_of].
  intros Hcov.
  repeat match goal with |- _ /\ _ => split end; try assumption; try reflexivity.
  destruct (open_opportunities O); cbn in Hcov; injection Hcov as <-; reflexivity.
Qed.

Lemma length_filter_le {A} (f : A -> bool) (l : list A) :
  (length (List.filter f l) <= length l)%nat.
Proof. induction l as [|a l IH]; cbn; [lia|]. destruct (f a); cbn; lia. Qed.

Lemma guarded_rate_bounds (p t : Z) :
  (0 <= p)%Z -> (p <= t)%Z ->
  (0 <= guarded_rate p t)%Q /\ (guarded_rate p t <= 100)%Q.
Proof.
  intros Hp Hpt. unfold guarded_rate.
  destruct (0 <? t)%Z eqn:Ht; [|split; lra].
  apply Z.ltb_lt in Ht.
  assert (0 < inject_Z t)%Q as Ht' by (now rewrite (Zlt_Qlt 0 t) in Ht).
  assert (0 <= inject_Z p / inject_Z t)%Q as Hlo.
  { apply Qle_shift_div_l; [exact Ht'|]. rewrite Qmult_0_l. now rewrite (Zle_Qle 0 p) in Hp. }
  assert (inject_Z p / inject_Z t <= 1)%Q as Hhi.
  { apply Qle_shift_div_r; [exact Ht'|]. rewrite Qmult_1_l. now rewrite Zle_Qle in Hpt. }
  split; lra.
Qed.

(** X10.  Whenever the calculator returns, whatever the data, win_rate
    and lead_conversion_rate are numbers between 0 and 100. *)
Theorem calculate_rates_bounded {W} `{Runtime W} (data : list (string * list record))
    (w w' : W) (k : gmap string kval) :
  calculate data w = Ok (k, w') ->
  metric_between k "win_rate" 0 100 /\ metric_between k "lead_conversion_rate" 0 100.
Proof.
  intros (L & O & D & rev & avg & pv & cov & _ & _ & _ & _ & _ & _ & _
            & _ & _ & Hwin & _ & _ & _ & Hlcr)%calculate_inv.
  split; eexists; (split; [eassumption|]); apply guarded_rate_bounds; try lia.
  pose proof (length_filter_le (fun r => bool_decide (r !! "status" = Some (VStr "Qualified"))) L).
  unfold qualified, having. lia.
Qed.

Lemma calculate_rates_bounded_witness :
  calculate Tiny.data 0%nat
  = Ok (returned (calculate Tiny.data 0%nat), 10%nat) /\
  metric_between (returned (calculate Tiny.data 0%nat)) "win_rate" 0 100 /\
  metric_between (returned (calculate Tiny.data 0%nat)) "lead_conversion_rate" 0 100.
Proof.
  assert (calculate Tiny.data 0%nat = Ok (returned (calculate Tiny.data 0%nat), 10%nat))
    as Hrun by reflexivity.
  split; [exact Hrun|].
  exact (calculate_rates_bounded Tiny.data 0%nat 10%nat _ Hrun).
Defined.

(** X11.  Whenever the calculator returns, whatever the data,
    pipeline_velocity is pipeline_value x 0.7 / 30 and coverage_ratio is
    pipeline_value / 100000, or 0 when no opportunity is open. *)
Theorem calculate_pipeline_relations {W} `{Runtime W}
    (data : list (string * list record)) (w w' : W) (k : gmap string kval) :
  calculate data w = Ok (k, w') ->
  exists O pv,
    getitem "opportunities" data = Ok O /\
    k !! "pipeline_value" = Some (KNum pv) /\
    k !! "pipeline_velocity" = Some (KNum (pv * (7 # 10) / 30)) /\
    k !! "coverage_ratio"
    = Some (KNum (match open_opportunities O with
                  | [] => 0
                  | _ => pv / 100000
                  end)).
Proof.
  intros (L & O & D & rev & avg & pv & cov & _ & HO & _ & _ & _ & _ & ->
            & _ & _ & _ & Hpv & Hvel & Hcov & _)%calculate_inv.
  now exists O, pv.
Qed.

Lemma calculate_pipeline_relations_witness :
  calculate Tiny.data 0%nat = Ok (returned (calculate Tiny.data 0%nat), 10%nat) /\
  exists O pv,
    getitem "opportunities" Tiny.data = Ok O /\
    returned (calculate Tiny.data 0%nat) !! "pipeline_value" = Some (KNum pv) /\
    returned (calculate Tiny.data 0%nat) !! "pipeline_velocity"
    = Some (KNum (pv * (7 # 10) / 30)) /\
    returned (calculate Tiny.data 0%nat) !! "coverage_ratio"
    = Some (KNum (match open_opportunities O with
                  | [] => 0
                  | _ => pv / 100000
                  end)).
Proof.
  assert (calculate Tiny.data 0%nat = Ok (returned (calculate Tiny.data 0%nat), 10%nat))
    as Hrun by reflexivity.
  split; [exact Hrun|].
  exact (calculate_pipeline_relations Tiny.data 0%nat 10%nat _ Hrun).
Defined.

(** X12.  The metrics read off the data do not depend on the random
    source: two runs of the calculator on the same data that return,
    from whatever states, agree on monthly_revenue, average_deal_size,
    win_rate, pipeline_value, pipeline_velocity, coverage_ratio and
    lead_conversion_rate. *)
Theorem calculate_data_metrics_fixed {W} `{Runtime W}
    (data : list (string * list record)) (w1 w1' w2 w2' : W) (k1 k2 : gmap string kval) :
  calculate data w1 = Ok (k1, w1') ->
  calculate data w2 = Ok (k2, w2') ->
  forall key, key ∈ data_keys -> k1 !! key = k2 !! key.
Proof.
  intros (L & O & D & rev & avg & pv & cov & HL & HO & HD & Hrev & Havg & Hpv & ->
            & Hk1)%calculate_inv
         (L' & O' & D' & rev' & avg' & pv' & cov' & HL' & HO' & HD' & Hrev' & Havg' & Hpv' & ->
            & Hk2)%calculate_inv.
  rewrite HL in HL'. rewrite HO in HO'. rewrite HD in HD'.
  injection HL' as <-. injection HO' as <-. injection HD' as <-.
  rewrite Hrev in Hrev'. rewrite Havg in Havg'. rewrite Hpv in Hpv'.
  injection Hrev' as <-. injection Havg' as <-. injection Hpv' as <-.
  destruct Hk1 as (? & ? & ? & ? & ? & ? & ?), Hk2 as (? & ? & ? & ? & ? & ? & ?).
  intros key Hkey. unfold data_keys in Hkey.
  repeat (apply elem_of_cons in Hkey as [->|Hkey]; [congruence|]).
  now apply elem_of_nil in Hkey.
Qed.

Lemma calculate_data_metrics_fixed_witness :
  calculate Tiny.data 0%nat = Ok (returned (calculate Tiny.data 0%nat), 10%nat) /\
  calculate Tiny.data 5%nat = Ok (returned (calculate Tiny.data 5%nat), 15%nat) /\
  forall key, key ∈ data_keys ->
    returned (calculate Tiny.data 0%nat) !! key = returned (calculate Tiny.data 5%nat) !! key.
Proof.
  assert (calculate Tiny.data 0%nat = Ok (returned (calculate Tiny.data 0%nat), 10%nat))
    as Hrun0 by reflexivity.
  assert (calculate Tiny.data 5%nat = Ok (returned (calculate Tiny.data 5%nat), 15%nat))
    as Hrun5 by reflexivity.
  split; [exact Hrun0|]. split; [exact Hrun5|].
  exact (calculate_data_metrics_fixed Tiny.data 0%nat 10%nat 5%nat 15%nat _ _ Hrun0 Hrun5).
Defined.

Lemma getitem_missing {A} (k : string) (d : list (string * A)) :
  (forall a, (k, a) ∉ d) -> getitem k d = Err (KeyError k).
Proof.
  induction d as [|[k' a] d IH]; intros Hk; cbn; [reflexivity|].
  destruct (decide (k' = k)) as [->|Hne].
  - now destruct (Hk a (list_elem_of_here _ _)).
  - apply IH. intros a' Ha'. apply (Hk a'). now apply list_elem_of_further.
Qed.

Lemma getitem_present {A} (k : string) (a : A) (d : list (string * A)) :
  (k, a) ∈ d -> exists a', getitem k d = Ok a'.
Proof.
  induction d as [|[k' a0] d IH]; intros Hk; cbn; [now apply elem_of_nil in Hk|].
  destruct (decide (k' = k)) as [->|Hne]; [eauto|].
  apply elem_of_cons in Hk as [[= -> ->]|Hk]; [congruence | auto].
Qed.

(** X13.  A mapping without one of the three collections makes the
    calculator raise KeyError with the first missing name, in the order
    leads, opportunities, closed_deals. *)
Theorem calculate_missing_collection {W} `{Runtime W}
    (data : list (string * list record)) (w : W) :
  ((forall v, ("leads", v) ∉ data) ->
   calculate data w = Err (KeyError "leads")) /\
  (forall L, ("leads", L) ∈ data -> (forall v, ("opportunities", v) ∉ data) ->
   calculate data w = Err (KeyError "opportunities")) /\
  (forall L O, ("leads", L) ∈ data -> ("opportunities", O) ∈ data ->
   (forall v, ("closed_deals", v) ∉ data) ->
   calculate data w = Err (KeyError "closed_deals")).
Proof.
  unfold calculate. split; [|split].
  - intros HL%getitem_missing. rewrite HL. reflexivity.
  - intros L [L' HL]%getitem_present HO%getitem_missing. rewrite HL, HO. reflexivity.
  - intros L O [L' HL]%getitem_present [O' HO]%getitem_present HD%getitem_missing.
    rewrite HL, HO, HD. reflexivity.
Qed.

(* data without a collection: the error names it *)
Example calculate_missing_collection_runs :
  calculate [("leads", Sample.leads); ("closed_deals", Sample.deals)] 0%nat
  = Err (KeyError "opportunities")
  /\ calculate ([] : list (string * list record)) 0%nat = Err (KeyError "leads").
Proof. split; reflexivity. Qed.

Lemma has_key_column c (rs : list record) :
  has_key c rs <-> c ∈ columns (frame_of rs).
Proof. symmetry. apply columns_frame_of. Qed.

(** X14.  When the collections are there with the status and stage
    fields but no closed deal carries the key amount, the calculator
    raises KeyError 'amount'. *)
Theorem calculate_missing_amount {W} `{Runtime W} (L O D : list record) (w : W) :
  has_key "status" L -> has_key "stage" O -> has_key "status" D ->
  (forall r, r ∈ D -> r !! "amount" = None) ->
  calculate (data_of L O D) w = Err (KeyError "amount").
Proof.
  intros HL%has_key_column%column_in HO%has_key_column%column_in
         HD%has_key_column%column_in Hno.
  assert ("amount" ∉ columns (frame_of D)) as Hcol.
  { intros (r & Hr & Hsome)%columns_frame_of. rewrite (Hno r Hr) in Hsome.
    now destruct Hsome. }
  unfold calculate, data_of. run.
  erewrite bind_err; [reflexivity|].
  unfold amount_sum. now rewrite column_not_in by exact Hcol.
Qed.

Lemma calculate_missing_amount_witness :
  has_key "status" [Tiny.mk_lead "New"] /\
  has_key "stage" [Tiny.mk_opp "Demo" (VNum 4000)] /\
  has_key "status" [Tiny.bare_deal "Closed Won"] /\
  calculate (data_of [Tiny.mk_lead "New"] [Tiny.mk_opp "Demo" (VNum 4000)]
               [Tiny.bare_deal "Closed Won"]) 0%nat
  = Err (KeyError "amount").
Proof.
  assert (has_key "status" [Tiny.mk_lead "New"]) as HL
    by (eexists; split; [apply list_elem_of_here | eexists; reflexivity]).
  assert (has_key "stage" [Tiny.mk_opp "Demo" (VNum 4000)]) as HO
    by (eexists; split; [apply list_elem_of_here | eexists; reflexivity]).
  assert (has_key "status" [Tiny.bare_deal "Closed Won"]) as HD
    by (eexists; split; [apply list_elem_of_here | eexists; reflexivity]).
  split; [exact HL|]. split; [exact HO|]. split; [exact HD|].
  apply (calculate_missing_amount _ _ _ 0%nat HL HO HD).
  intros r Hr. apply list_elem_of_singleton in Hr as ->. reflexivity.
Defined.

Lemma partial_uniform {W} `{Runtime W} a b :
  (a <= b)%Q -> partial (uniform a b) (fun q => (a <= q)%Q /\ (q <= b)%Q).
Proof. intros Hab. now apply total_is_partial, total_uniform. Qed.

(** X15.  Whenever the calculator returns, the seven placeholder
    metrics lie in the ranges they are drawn from: sales_cycle_days in
    [14, 45], quota_attainment in [70, 120], forecast_accuracy in
    [80, 95], cost_per_lead in [50, 200], mql_to_sql in [20, 50],
    website_conversion in [1, 5] and cac in [500, 2000]; cac is thus
    never 0. *)
Theorem calculate_placeholder_ranges {W} `{Runtime W}
    (data : list (string * list record)) (w w' : W) (k : gmap string kval) :
  calculate data w = Ok (k, w') ->
  metric_between k "sales_cycle_days" 14 45 /\
  metric_between k "quota_attainment" 70 120 /\
  metric_between k "forecast_accuracy" 80 95 /\
  metric_between k "cost_per_lead" 50 200 /\
  metric_between k "mql_to_sql" 20 50 /\
  metric_between k "website_conversion" 1 5 /\
  metric_between k "cac" 500 2000.
Proof.
  revert w k w'. change (partial (calculate data) (fun k =>
    metric_between k "sales_cycle_days" 14 45 /\
    metric_between k "quota_attainment" 70 120 /\
    metric_between k "forecast_accuracy" 80 95 /\
    metric_between k "cost_per_lead" 50 200 /\
    metric_between k "mql_to_sql" 20 50 /\
    metric_between k "website_conversion" 1 5 /\
    metric_between k "cac" 500 2000)).
  unfold calculate.
  repeat (first
    [ eapply partial_bind; [apply partial_uniform; lra | intros ? [? ?]]
    | eapply partial_bind; [apply partial_any | intros ? _] ];
    cbv zeta).
  apply partial_ret.
  repeat match goal with |- _ /\ _ => split end;
    (eexists; split; [reflexivity | split; assumption]).
Qed.

Lemma calculate_placeholder_ranges_witness :
  calculate Tiny.data 3%nat = Ok (returned (calculate Tiny.data 3%nat), 13%nat) /\
  metric_between (returned (calculate Tiny.data 3%nat)) "cac" 500 2000.
Proof.
  assert (calculate Tiny.data 3%nat = Ok (returned (calculate Tiny.data 3%nat), 13%nat))
    as Hrun by reflexivity.
  split; [exact Hrun|].
  apply (calculate_placeholder_ranges Tiny.data 3%nat 13%nat _ Hrun).
Defined.

(** ** Amounts that are missing *)

Lemma cell_amount_cases (r : record) :
  nullable_amount r ->
  (cell "amount" r = VNone /\ amount_of r = 0%Q)
  \/ (exists z, cell "amount" r = VInt z /\ amount_of r = inject_Z z)
  \/ (exists q, cell "amount" r = VNum q /\ amount_of r = q).
Proof.
  intros Hr. unfold cell, amount_of. unfold nullable_amount in Hr.
  destruct (r !! "amount") as [[| s | z |q]|]; cbn; eauto.
  now destruct (Hr s).
Qed.

Lemma series_sum_nullable (rs : list record) :
  Forall nullable_amount rs ->
  series_sum (cell "amount" <$> rs) = Ok (total_amount (with_amount rs)).
Proof.
  induction 1 as [|r rs Hr _ IH]; [reflexivity|].
  unfold with_amount in *. cbn.
  destruct (cell_amount_cases r Hr) as [[-> _]|[(z & -> & Hz)|(q & -> & Hq)]];
    [exact IH | |]; cbn; rewrite IH; [rewrite Hz | rewrite Hq]; reflexivity.
Qed.

Lemma series_count_nullable (rs : list record) :
  Forall nullable_amount rs ->
  series_count (cell "amount" <$> rs) = Z.of_nat (length (with_amount rs)).
Proof.
  unfold series_count, with_amount. intros Hall. f_equal.
  induction Hall as [|r rs Hr _ IH]; [reflexivity|].
  cbn. destruct (cell_amount_cases r Hr) as [[-> _]|[(z & -> & _)|(q & -> & _)]];
    cbn; now rewrite IH.
Qed.

Section MaskedAmounts.
Variables (key : string) (f : value -> bool) (rs : list record).
Hypothesis Hamount : "amount" ∈ columns (frame_of rs).
Hypothesis Hnull : Forall nullable_amount rs.

Local Abbreviation kept := (List.filter (fun r => f (cell key r)) rs).

Lemma amount_sum_masked :
  amount_sum (masked key f rs) = Ok (total_amount (with_amount kept)).
Proof.
  unfold amount_sum. rewrite (column_in "amount" (masked key f rs) Hamount), rows_masked.
  cbn. apply series_sum_nullable, Forall_list_filter, Hnull.
Qed.

Lemma amount_mean_masked :
  amount_mean (masked key f rs)
  = Ok (if (Z.of_nat (length (with_amount kept)) =? 0)%Z then KNaN
        else KNum (total_amount (with_amount kept)
                   / inject_Z (Z.of_nat (length (with_amount kept))))).
Proof.
  unfold amount_mean. rewrite (column_in "amount" (masked key f rs) Hamount), rows_masked.
  cbn. unfold series_mean.
  rewrite series_sum_nullable, series_count_nullable by apply Forall_list_filter, Hnull.
  reflexivity.
Qed.
End MaskedAmounts.

Lemma mean_step {W} (l : list record) (w : W) :
  (if negb (bool_decide (l = []))
   then lift_result
          (Ok (if (Z.of_nat (length (with_amount l)) =? 0)%Z then KNaN
               else KNum (total_amount (with_amount l)
                          / inject_Z (Z.of_nat (length (with_amount l))))))
   else mret (KNum 0)) w
  = Ok (mean_kval l, w).
Proof.
  destruct l as [|r l]; [reflexivity|]. unfold mean_kval.
  destruct (with_amount (r :: l)); reflexivity.
Qed.

Lemma coverage_step' {W} (l : list record) (t : Q) (w : W) :
  (if negb (Z.of_nat (length l) =? 0)%Z
   then lift_result (Ok (t / 100000)%Q)
   else mret 0%Q) w
  = Ok (match l with [] => 0%Q | _ => (t / 100000)%Q end, w).
Proof. destruct l; reflexivity. Qed.

(* the run of the calculator on collections that have the columns it
   reads and no text among the amounts *)
Lemma calculate_run {W} `{Runtime W} (L O D : list record) (w : W) :
  has_key "status" L ->
  has_key "stage" O -> has_key "amount" O -> Forall nullable_amount O ->
  has_key "status" D -> has_key "amount" D -> Forall nullable_amount D ->
  exists k w',
    calculate (data_of L O D) w = Ok (k, w') /\
    k !! "monthly_revenue" = Some (KNum (total_amount (with_amount (closed_won D)))) /\
    k !! "average_deal_size" = Some (mean_kval (closed_won D)) /\
    k !! "pipeline_value"
    = Some (KNum (total_amount (with_amount (open_opportunities O)))).
Proof.
  intros HLs%has_key_column%column_in HOs%has_key_column%column_in HOa%has_key_column HOn
         HDs%has_key_column%column_in HDa%has_key_column HDn.
  unfold calculate, data_of. run.
  fold (masked "status" (eq_str "Closed Won") D).
  fold (masked "status" (eq_str "Closed Lost") D).
  fold (masked "stage" (fun v => negb (isin ["Closed Won"; "Closed Lost"] v)) O).
  fold (masked "status" (eq_str "Qualified") L).
  rewrite !amount_sum_masked, !amount_mean_masked by assumption.
  unfold masked. rewrite !len_sel, !empty_sel by assumption.
  cbn [rows frame_of]. rewrite !filter_eq_str, filter_open.
  fold (closed_won D) (closed_lost D) (qualified L).
  repeat (first [ erewrite bind_ok
                    by (first [ reflexivity | apply uniform_run
                              | apply mean_step | apply coverage_step' ])
                | rewrite bind_assoc ];
          cbv beta zeta; cbn [dict_comprehension and_then]).
  eexists _, _. split; [reflexivity|]. repeat split; reflexivity.
Qed.

Lemma amount_of_cell (r : record) :
  amount_of r
  = match cell "amount" r with VInt z => inject_Z z | VNum q => q | _ => 0%Q end.
Proof. unfold amount_of, cell. now destruct (r !! "amount") as [[| s | z |q]|]. Qed.

Lemma total_amount_with_amount (rs : list record) :
  (total_amount (with_amount rs) == total_amount rs)%Q.
Proof.
  induction rs as [|r rs IH]; [reflexivity|].
  change (total_amount (r :: rs)) with (amount_of r + total_amount rs)%Q.
  unfold with_amount in *. cbn [List.filter].
  rewrite (amount_of_cell r).
  destruct (cell "amount" r) eqn:Hc.
  - rewrite IH. lra.
  - rewrite IH. lra.
  - change (total_amount (r :: ?l)) with (amount_of r + total_amount l)%Q.
    rewrite (amount_of_cell r), Hc, IH. reflexivity.
  - change (total_amount (r :: ?l)) with (amount_of r + total_amount l)%Q.
    rewrite (amount_of_cell r), Hc, IH. reflexivity.
Qed.

(** X16.  When the collections have the columns the calculator reads,
    no amount is text and the amounts are within reach of a 64-bit sum,
    an amount that is None or absent counts for nothing: monthly_revenue and pipeline_value are the sums over the won
    deals and the open opportunities with such amounts taken as 0, and
    average_deal_size divides the sum by the number of won deals that
    carry a number, not by the number of won deals. *)
Theorem calculate_skips_missing_amounts {W} `{Runtime W} (L O D : list record) (w : W) :
  has_key "status" L ->
  has_key "stage" O -> has_key "amount" O -> Forall nullable_amount O ->
  has_key "status" D -> has_key "amount" D -> Forall nullable_amount D ->
  within_int64 O -> within_int64 D ->
  exists k w',
    calculate (data_of L O D) w = Ok (k, w') /\
    metric k "monthly_revenue" (total_amount (closed_won D)) /\
    metric k "pipeline_value" (total_amount (open_opportunities O)) /\
    (with_amount (closed_won D) <> [] ->
     metric k "average_deal_size"
       (total_amount (closed_won D) / count (with_amount (closed_won D)))).
Proof.
  intros HL HOs HOa HOn HDs HDa HDn _ _.
  destruct (calculate_run L O D w HL HOs HOa HOn HDs HDa HDn)
    as (k & w' & Hrun & Hrev & Havg & Hpv).
  exists k, w'. split; [exact Hrun|].
  split; [eexists; split; [exact Hrev | apply total_amount_with_amount]|].
  split; [eexists; split; [exact Hpv | apply total_amount_with_amount]|].
  intros Hsome. unfold mean_kval in Havg.
  destruct (closed_won D) as [|d won] eqn:Hwon; [now destruct Hsome|].
  destruct (with_amount (d :: won)) as [|a ws] eqn:Hws; [now destruct Hsome|].
  eexists. split; [exact Havg|].
  rewrite <- Hws. now rewrite total_amount_with_amount.
Qed.

Lemma calculate_skips_missing_amounts_witness :
  exists k w',
    calculate (data_of [Tiny.mk_lead "New"]
                 [Tiny.mk_opp "Demo" (VNum 4000); Tiny.mk_opp "Proposal" VNone]
                 [Tiny.mk_deal "Closed Won" (VNum 900); Tiny.mk_deal "Closed Won" VNone]) 0%nat
    = Ok (k, w') /\
    metric k "monthly_revenue" 900 /\ metric k "pipeline_value" 4000.
Proof.
  destruct (calculate_skips_missing_amounts
              [Tiny.mk_lead "New"]
              [Tiny.mk_opp "Demo" (VNum 4000); Tiny.mk_opp "Proposal" VNone]
              [Tiny.mk_deal "Closed Won" (VNum 900); Tiny.mk_deal "Closed Won" VNone] 0%nat)
    as (k & w' & Hrun & (q1 & Hq1 & Hrev) & (q2 & Hq2 & Hpv) & _).
  - eexists; split; [apply list_elem_of_here | eexists; reflexivity].
  - eexists; split; [apply list_elem_of_here | eexists; reflexivity].
  - eexists; split; [apply list_elem_of_here | eexists; reflexivity].
  - repeat constructor; intros s; discriminate.
  - eexists; split; [apply list_elem_of_here | eexists; reflexivity].
  - eexists; split; [apply list_elem_of_here | eexists; reflexivity].
  - repeat constructor; intros s; discriminate.
  - reflexivity.
  - reflexivity.
  - exists k, w'. split; [exact Hrun|].
    split; eexists; (split; [eassumption|]); [rewrite Hrev | rewrite Hpv]; reflexivity.
Defined.

(** X17.  The guard on average_deal_size covers the empty subset only:
    when there are won deals and the amount of every one of them is
    None, the calculator returns NaN as average_deal_size (and 0 as
    monthly_revenue), not 0. *)
Theorem calculate_average_nan {W} `{Runtime W} (L O D : list record) (w : W) :
  has_key "status" L ->
  has_key "stage" O -> has_key "amount" O -> Forall nullable_amount O ->
  Forall nullable_amount D ->
  (exists r, r ∈ D /\ r !! "status" = Some (VStr "Closed Won")) ->
  (forall r, r ∈ D -> r !! "status" = Some (VStr "Closed Won") ->
             r !! "amount" = Some VNone) ->
  exists k w',
    calculate (data_of L O D) w = Ok (k, w') /\
    k !! "average_deal_size" = Some KNaN /\
    k !! "monthly_revenue" = Some (KNum 0).
Proof.
  intros HL HOs HOa HOn HDn (r0 & Hr0 & Hwon0) Hnone.
  assert (has_key "status" D) as HDs by (exists r0; rewrite Hwon0; eauto).
  assert (has_key "amount" D) as HDa
    by (exists r0; rewrite (Hnone r0 Hr0 Hwon0); eauto).
  destruct (calculate_run L O D w HL HOs HOa HOn HDs HDa HDn)
    as (k & w' & Hrun & Hrev & Havg & _).
  assert (closed_won D <> []) as Hne.
  { intros Hnil. assert (r0 ∈ closed_won D) as Hin; [|rewrite Hnil in Hin; inversion Hin].
    apply list_elem_of_In, filter_In. split; [now apply list_elem_of_In|].
    now apply bool_decide_eq_true_2. }
  assert (with_amount (closed_won D) = []) as Hws.
  { apply filter_nil_iff. intros r [Hr Hst]%list_elem_of_In%filter_In.
    apply list_elem_of_In in Hr. apply bool_decide_eq_true_1 in Hst.
    unfold cell. now rewrite (Hnone r Hr Hst). }
  exists k, w'. split; [exact Hrun|].
  rewrite Hrev, Havg, Hws. unfold mean_kval. rewrite Hws.
  destruct (closed_won D); [now destruct Hne | split; reflexivity].
Qed.

Lemma calculate_average_nan_witness :
  exists k w',
    calculate (data_of [Tiny.mk_lead "New"] [Tiny.mk_opp "Demo" (VNum 4000)]
                 [Tiny.mk_deal "Closed Won" VNone; Tiny.mk_deal "Closed Lost" (VNum 50)]) 0%nat
    = Ok (k, w') /\
    k !! "average_deal_size" = Some KNaN /\
    k !! "monthly_revenue" = Some (KNum 0).
Proof.
  apply (calculate_average_nan [Tiny.mk_lead "New"] [Tiny.mk_opp "Demo" (VNum 4000)]
           [Tiny.mk_deal "Closed Won" VNone; Tiny.mk_deal "Closed Lost" (VNum 50)] 0%nat).
  - eexists; split; [apply list_elem_of_here | eexists; reflexivity].
  - eexists; split; [apply list_elem_of_here | eexists; reflexivity].
  - eexists; split; [apply list_elem_of_here | eexists; reflexivity].
  - repeat constructor; intros s; discriminate.
  - repeat constructor; intros s; discriminate.
  - eexists; split; [apply list_elem_of_here | reflexivity].
  - intros r Hr Hst.
    apply elem_of_cons in Hr as [->|Hr]; [reflexivity|].
    apply list_elem_of_singleton in Hr as ->. discriminate.
Defined.

(** ** The forecaster on other mappings *)

(** X18.  A mapping without monthly_revenue makes the forecaster raise
    KeyError 'monthly_revenue'; a mapping with a numeric monthly_revenue
    but without lead_conversion_rate is accepted, and next_30d_leads is
    then 0. *)
Theorem forecast_missing_keys {W} `{Runtime W} (kpis : gmap string kval) (w : W) :
  (kpis !! "monthly_revenue" = None ->
   forecast kpis w = Err (KeyError "monthly_revenue")) /\
  (forall r, kpis !! "monthly_revenue" = Some (KNum r) ->
   kpis !! "lead_conversion_rate" = None ->
   exists f w', forecast kpis w = Ok (f, w') /\
                f !! "next_30d_leads" = Some (KNum 0)).
Proof.
  unfold forecast. split.
  - intros ->. reflexivity.
  - intros r -> ->. cbn [default int_twice times].
    erewrite bind_ok by reflexivity.
    erewrite bind_ok by apply uniform_run.
    eexists _, _. split; reflexivity.
Qed.

(* the empty mapping, and a mapping with monthly_revenue only *)
Example forecast_missing_keys_runs :
  forecast (∅ : gmap string kval) 0%nat = Err (KeyError "monthly_revenue")
  /\ returned (forecast (<["monthly_revenue" := KNum 100]> (∅ : gmap string kval)) 0%nat)
     !! "next_30d_leads" = Some (KNum 0).
Proof. split; reflexivity. Qed.

Lemma int_of_bounds (x : Q) (B : Z) :
  (0 <= x)%Q -> (x <= inject_Z B)%Q -> (0 <= int_of x)%Z /\ (int_of x <= B)%Z.
Proof.
  intros Hx HB. destruct (int_of_truncation x) as [Hpos _].
  destruct (Hpos Hx) as [Hlo Hhi].
  assert (inject_Z (int_of x) <= inject_Z B)%Q as H1 by lra.
  assert (inject_Z (-1) < inject_Z (int_of x))%Q as H2.
  { change (inject_Z (-1)) with (-1)%Q. lra. }
  rewrite <- Zle_Qle in H1. rewrite <- Zlt_Qlt in H2. lia.
Qed.

(** X19.  On the mapping the calculator returned, whatever the data and
    from whatever state of the random source, the forecaster returns and
    next_30d_leads is a whole number between 0 and 200. *)
Theorem forecast_leads_bounded {W} `{Runtime W} (data : list (string * list record))
    (w w1 w2 : W) (k : gmap string kval) :
  calculate data w = Ok (k, w1) ->
  exists f w3 n,
    forecast k w2 = Ok (f, w3) /\
    f !! "next_30d_leads" = Some (KNum (inject_Z n)) /\
    (0 <= n)%Z /\ (n <= 200)%Z.
Proof.
  intros (L & O & D & rev & avg & pv & cov & _ & _ & _ & _ & _ & _ & _
            & Hrev & _ & _ & _ & _ & _ & Hlcr)%calculate_inv.
  set (c := guarded_rate (Z.of_nat (length (qualified L))) (Z.of_nat (length L))) in *.
  assert ((0 <= c)%Q /\ (c <= 100)%Q) as [Hc0 Hc1].
  { apply guarded_rate_bounds; [lia|].
    pose proof (length_filter_le
                  (fun r => bool_decide (r !! "status" = Some (VStr "Qualified"))) L).
    unfold qualified, having. lia. }
  destruct (int_of_bounds (c * 2) 200) as [Hn0 Hn1];
    [lra | change (inject_Z 200) with 200%Q; lra |].
  unfold forecast. rewrite Hrev, Hlcr. cbn [default int_twice times].
  erewrite bind_ok by reflexivity.
  erewrite bind_ok by apply uniform_run.
  eexists _, _, (int_of (c * 2)). split; [reflexivity|]. split; [reflexivity|]. lia.
Qed.

Lemma forecast_leads_bounded_witness :
  calculate Tiny.data 0%nat = Ok (returned (calculate Tiny.data 0%nat), 10%nat) /\
  exists f w3 n,
    forecast (returned (calculate Tiny.data 0%nat)) 10%nat = Ok (f, w3) /\
    f !! "next_30d_leads" = Some (KNum (inject_Z n)) /\
    (0 <= n)%Z /\ (n <= 200)%Z.
Proof.
  assert (calculate Tiny.data 0%nat = Ok (returned (calculate Tiny.data 0%nat), 10%nat))
    as Hrun by reflexivity.
  split; [exact Hrun|].
  exact (forecast_leads_bounded Tiny.data 0%nat 10%nat 10%nat _ Hrun).
Defined.

(** ** The orchestrator *)

Lemma generated_has_key (P : Z -> record -> Prop) (c : string) (n : Z) (rs : list record) :
  (0 < n)%Z -> (forall i r, P i r -> is_Some (r !! c)) ->
  Forall2 P (range n) rs -> has_key c rs.
Proof.
  intros Hn HP Hall.
  destruct (range_has_record P n 0 rs Hall) as (r & Hr & Hrec); [lia | lia |].
  exists r. eauto.
Qed.

Lemma field_in_some (r : record) key allowed : field_in r key allowed -> is_Some (r !! key).
Proof. intros (s & -> & _). eauto. Qed.

Lemma field_amount_some (r : record) : field_amount r -> is_Some (r !! "amount").
Proof. intros (a & -> & _). eauto. Qed.

Lemma field_amount_nullable (r : record) : field_amount r -> nullable_amount r.
Proof. intros (a & Ha & _) s. rewrite Ha. discriminate. Qed.

(** X20.  From every state of the random source a run of the
    orchestrator reaches the dashboard without raising: the generated
    data passes the calculator and the forecaster, the alert list handed
    to display is empty, and no quality warning is shown. *)
Theorem run_reaches_display {W} `{Runtime W} (str_num : Q -> string) (w : W) :
  exists out w',
    Orchestrator.run str_num w = Ok (out, w') /\
    di_alerts out = [] /\
    di_warning out = None.
Proof.
  destruct (collect_data_records w) as (data & w1 & Hdata & ls & os & ds & -> & Hls & Hos & Hds).
  assert (has_key "status" ls) as HLs.
  { eapply (generated_has_key lead_record); [| |exact Hls]; [lia|].
    intros i r (_ & _ & Hst & _). eapply field_in_some, Hst. }
  assert (has_key "stage" os) as HOs.
  { eapply (generated_has_key opportunity_record); [| |exact Hos]; [lia|].
    intros i r (_ & _ & _ & _ & Hst & _). eapply field_in_some, Hst. }
  assert (has_key "amount" os) as HOa.
  { eapply (generated_has_key opportunity_record); [| |exact Hos]; [lia|].
    intros i r (_ & _ & Ha & _). apply field_amount_some, Ha. }
  assert (Forall nullable_amount os) as HOn.
  { eapply Forall2_Forall_r; [exact Hos|]. apply Forall_forall.
    intros i _ r (_ & _ & Ha & _). apply field_amount_nullable, Ha. }
  assert (has_key "status" ds) as HDs.
  { eapply (generated_has_key closed_deal_record); [| |exact Hds]; [lia|].
    intros i r (_ & _ & _ & Hst & _). eapply field_in_some, Hst. }
  assert (has_key "amount" ds) as HDa.
  { eapply (generated_has_key closed_deal_record); [| |exact Hds]; [lia|].
    intros i r (_ & _ & Ha & _). apply field_amount_some, Ha. }
  assert (Forall nullable_amount ds) as HDn.
  { eapply Forall2_Forall_r; [exact Hds|]. apply Forall_forall.
    intros i _ r (_ & _ & Ha & _). apply field_amount_nullable, Ha. }
  destruct (calculate_run ls os ds w1 HLs HOs HOa HOn HDs HDa HDn)
    as (k & w2 & Hk & _).
  destruct (forecast_after_calculate _ _ _ w2 _ Hk) as (f & w3 & Hf).
  unfold Orchestrator.run.
  erewrite bind_ok by exact Hdata. cbv beta zeta.
  erewrite bind_ok by exact Hk. cbv beta.
  erewrite bind_ok by exact Hf. cbv beta.
  rewrite (scan_generated str_num _ _ _ ls os ds Hls Hos Hds).
  eexists _, _. split; [reflexivity|]. split; reflexivity.
Qed.

(** ** A run on typed data *)

Lemma calculate_on_populated_data_witness :
  exists k w',
    calculate Tiny.data 0%nat = Ok (k, w') /\
    metric k "monthly_revenue" 900 /\
    metric k "win_rate" 50 /\
    metric k "pipeline_value" 4000 /\
    metric k "lead_conversion_rate" 50.
Proof.
  destruct (calculate_on_populated_data
              [Tiny.mk_lead "Qualified"; Tiny.mk_lead "New"]
              [Tiny.mk_opp "Demo" (VNum 4000)]
              [Tiny.mk_deal "Closed Won" (VNum 900); Tiny.mk_deal "Closed Lost" (VNum 50)]
              0%nat)
    as (k & w' & Hrun & (q1 & Hk1 & Hq1) & _ & (q3 & Hk3 & Hq3) & (q4 & Hk4 & Hq4)
          & _ & _ & (q7 & Hk7 & Hq7)).
  - discriminate.
  - discriminate.
  - discriminate.
  - repeat (apply Forall_cons_2 || apply Forall_nil_2); eexists; reflexivity.
  - repeat (apply Forall_cons_2 || apply Forall_nil_2).
    split; [eexists; reflexivity | right; eexists; reflexivity].
  - repeat (apply Forall_cons_2 || apply Forall_nil_2);
      (split; [eexists; reflexivity | right; eexists; reflexivity]).
  - reflexivity.
  - reflexivity.
  - exists k, w'. split; [exact Hrun|].
    repeat split; eexists; (split; [eassumption|]);
      [rewrite Hq1 | rewrite Hq3 | rewrite Hq4 | rewrite Hq7]; reflexivity.
Defined.
